(** * ros2_aruco: the pose-to-wire pipeline of [aruco_node.py]

    A shallow embedding of [ArucoNode] (src/ros2_aruco/ros2_aruco/aruco_node.py):
    the NumPy scalar arithmetic the node relies on, the two 5-byte CAN
    payloads built per marker, the white-list filter, and the two callbacks
    together with the constructor, as functions producing a trace of the
    effects they perform. *)

From Stdlib Require Import ZArith List Bool Lia String QArith Qabs.
From Stdlib Require Import Floats.SpecFloat.
Import ListNotations.

Local Open Scope Z_scope.

(** ** NumPy scalars *)

Module NumPy.

(** Two's-complement reduction of [n] to a signed [w]-bit integer. *)
Definition wrap (w n : Z) : Z := (n + 2 ^ (w - 1)) mod 2 ^ w - 2 ^ (w - 1).

Definition INT32_MIN : Z := - 2 ^ 31.
Definition INT32_MAX : Z := 2 ^ 31 - 1.

Definition is_int32 (n : Z) : bool := (INT32_MIN <=? n) && (n <=? INT32_MAX).

(** Python floats and [np.float64] are IEEE 754 binary64 values. *)
Definition float64 : Type := spec_float.
Definition prec : Z := 53.
Definition emax : Z := 1024.

Definition valid (f : float64) : bool := valid_binary prec emax f.

Definition fmul : float64 -> float64 -> float64 := SFmul prec emax.
Definition fdiv : float64 -> float64 -> float64 := SFdiv prec emax.
Definition fleb : float64 -> float64 -> bool := SFleb.

(** Conversion of an integer to binary64 (round to nearest even), as done
    when an [int] meets a [float] and when [np.append] stores an integer
    into a float64 array. *)
Definition of_int (n : Z) : float64 := binary_normalize prec emax n 0 false.

(** The C conversion of a double to an integer type discards the
    fractional part.  It is defined on finite values only. *)
Definition trunc (f : float64) : option Z :=
  match f with
  | S754_zero _ => Some 0
  | S754_finite s m e =>
      let a := Z.shiftl (Zpos m) e in Some (if s then - a else a)
  | S754_infinity _ | S754_nan => None
  end.

(** [np.int32(f)] on a float64.  Where the C conversion is undefined (NaN,
    infinities, values outside the int32 range) the x86-64 conversion
    instruction yields the "integer indefinite" value [INT32_MIN], which is
    what NumPy returns there. *)
Definition int32 (f : float64) : Z :=
  match trunc f with
  | Some z => if is_int32 z then z else INT32_MIN
  | None => INT32_MIN
  end.

(** [a.astype(np.uint8)] on one float64 element. *)
Definition astype_uint8 (f : float64) : Z :=
  match trunc f with
  | Some z => z mod 256
  | None => 0
  end.

(** [np.rad2deg(x)] is [x * (180.0 / NPY_PI)], the constant being folded
    in binary64. *)
Definition NPY_PI : float64 := S754_finite false 7074237752028440 (-51).
Definition rad2deg_factor : float64 := fdiv (of_int 180) NPY_PI.
Definition rad2deg (x : float64) : float64 := fmul x rad2deg_factor.

(** Integer scalars.  [position_x], [position_z] are [np.int32]; mixing one
    with a Python [int] in [+] or [-] gives a [w]-bit NumPy integer, with
    [w = 32] under NEP 50 promotion (NumPy 2) and [w = 64] under the older
    rule.  Shifts and masks cannot overflow and are the operations of [Z]. *)
Section Promotion.
Variable w : Z.
Definition add (a b : Z) : Z := wrap w (a + b).
Definition sub (a b : Z) : Z := wrap w (a - b).
End Promotion.

Definition right_shift (a n : Z) : Z := Z.shiftr a n.

(** The exact rational value [(-1)^s * m * 2^e] of a binary64 (0 for the
    non-finite ones). *)
Definition to_Q (f : float64) : Q :=
  match f with
  | S754_finite s m e =>
      let n := if s then Zneg m else Zpos m in
      if 0 <=? e then inject_Z (n * 2 ^ e) else n # Z.to_pos (2 ^ (- e))
  | _ => 0%Q
  end.

(** [np.int32] is defined by C on [f]: finite, and within the int32 range
    once the fractional part is discarded. *)
Definition convertible (f : float64) : bool :=
  match trunc f with
  | Some z => is_int32 z
  | None => false
  end.

End NumPy.

(** ** The two CAN payloads of one marker (image_callback, lines 254-279) *)

Section Frames.
Variable w : Z.

(** [r = 180 - np.int32(np.rad2deg(euler[1]))] *)
Definition wire_angle (euler : NumPy.float64 * NumPy.float64 * NumPy.float64) : Z :=
  let '(_, beta, _) := euler in
  NumPy.sub w 180 (NumPy.int32 (NumPy.rad2deg beta)).

(** [np.int32(pose.position.x * 100)] *)
Definition quantize (v : NumPy.float64) : Z :=
  NumPy.int32 (NumPy.fmul v (NumPy.of_int 100)).

(** [np.append] onto an empty Python list builds a float64 array. *)
Definition np_append (a : list NumPy.float64) (n : Z) : list NumPy.float64 :=
  a ++ [NumPy.of_int n].

Definition tolist_uint8 (a : list NumPy.float64) : list Z :=
  map NumPy.astype_uint8 a.

Definition data_array1 (position_x position_z : Z) : list NumPy.float64 :=
  let a := [] in
  let a := np_append a 2 in
  let a := np_append a (Z.land (NumPy.right_shift position_x 8) 255) in
  let a := np_append a (Z.land (NumPy.add w position_x 128) 255) in
  let a := np_append a (Z.land (Z.shiftr (NumPy.add w position_z 128) 8) 255) in
  let a := np_append a (Z.land position_z 255) in
  a.

Definition data_array2 (r : Z) : list NumPy.float64 :=
  let a := [] in
  let a := np_append a 3 in
  let a := np_append a (Z.land (Z.shiftr r 8) 255) in
  let a := np_append a (Z.land r 255) in
  let a := np_append a 0 in
  let a := np_append a 0 in
  a.

Definition position_frame (position_x position_z : Z) : list Z :=
  tolist_uint8 (data_array1 position_x position_z).

Definition orientation_frame (r : Z) : list Z :=
  tolist_uint8 (data_array2 r).
End Frames.

(** ** Messages *)

Definition Vec3 : Type := (NumPy.float64 * NumPy.float64 * NumPy.float64)%type.

Record Header := { stamp : Z; frame_id : string }.

Record CameraInfo := {
  info_header : Header;
  k : list NumPy.float64;
  d : list NumPy.float64 }.

Record ImageMsg := { img_header : Header; img_data : list Z }.

(** [geometry_msgs/Quaternion]: fields x, y, z, w. *)
Record Quaternion := {
  orientation_x : NumPy.float64;
  orientation_y : NumPy.float64;
  orientation_z : NumPy.float64;
  orientation_w : NumPy.float64 }.

Record Pose := { position : Vec3; orientation : Quaternion }.

Definition position_x (p : Pose) : NumPy.float64 := fst (fst (position p)).
Definition position_z (p : Pose) : NumPy.float64 := snd (position p).

Record PoseArray := { pa_header : Header; poses : list Pose }.

Record ArucoMarkers := {
  m_header : Header;
  marker_ids : list Z;
  m_poses : list Pose }.

Inductive FrameKind := CAN_DATA | CAN_REMOTE.
Inductive FrameFormat := STANDARD_FORMAT | EXTENDED_FORMAT.

Record CommunicationFrame := {
  can_header : Header;
  can_id : Z;
  can_frame : FrameKind;
  can_format : FrameFormat;
  can_data : list Z }.

(** [np.quaternion(w, x, y, z)] *)
Record np_quaternion := { q_w : NumPy.float64; q_x : NumPy.float64;
                          q_y : NumPy.float64; q_z : NumPy.float64 }.

(** ** External collaborators

    OpenCV, cv_bridge, tf_transformations and the quaternion package are not
    part of the repository.  Their functions are taken as given.  A detection
    is delivered per marker: the id together with the rotation and
    translation vectors that [estimatePoseSingleMarkers] computes for its
    corners, since OpenCV returns these arrays with one row per id.  The
    detector answers [None] when [marker_ids] is [None]. *)

Inductive PyValue := PyInt (n : Z) | PyOther.

Inductive Exception := AttributeError | UnboundLocalError | cv2_error.

Inductive Outcome (A : Type) :=
| Returned (a : A)
| Raised (e : Exception).
Arguments Returned {A} a.
Arguments Raised {A} e.

Record Detection := { det_id : Z; det_rvec : Vec3; det_tvec : Vec3 }.

Class External := {
  (** [dir(cv2.aruco)] with the value of each attribute *)
  cv2_aruco : list (string * PyValue);
  (** [cv2.aruco.getPredefinedDictionary] and the detector built from it *)
  getPredefinedDictionary : PyValue -> Outcome Z;
  (** [imgmsg_to_cv2], [detectMarkers] and [estimatePoseSingleMarkers] *)
  detectMarkers :
    ImageMsg -> NumPy.float64 -> option (list NumPy.float64) ->
    option (list NumPy.float64) -> option (list Detection);
  (** [cv2.Rodrigues] followed by [quaternion_from_matrix]: (x, y, z, w) *)
  quaternion_from_rvec : Vec3 -> Quaternion;
  (** [quaternion.as_euler_angles] *)
  as_euler_angles : np_quaternion -> Vec3 }.

(** ** Effects *)

Inductive Level := INFO | WARN | ERROR.

Inductive LogMsg :=
| MarkerSize (s : NumPy.float64)
| MarkerType (name : string)
| ImageTopic (name : string)
| ImageInfoTopic (name : string)
| BadDictionaryId (name : string)
| ValidOptions (options : string)
| CameraInfoReceived
| NoCameraInfo
| Position (x z r : Z).

Inductive Event :=
| Log (lvl : Level) (msg : LogMsg)
| Print (euler : Vec3)
| CreateSubscription (topic : string)
| CreatePublisher (topic : string)
| DestroySubscription
| Detect
| Imshow
| CanPublish (f : CommunicationFrame)
| PosesPublish (p : PoseArray)
| MarkersPublish (m : ArucoMarkers).


(** ** The node *)

Record Parameters := {
  p_marker_size : NumPy.float64;
  p_aruco_dictionary_id : string;
  p_image_topic : string;
  p_camera_info_topic : string;
  p_camera_frame : string;
  p_imshow_isshow : bool;
  p_id_whitelist : list Z }.

Record ArucoNode := {
  marker_size : NumPy.float64;
  camera_frame : string;
  imshow_isshow : bool;
  id_whitelist : list Z;
  info_sub : bool;
  info_msg : option CameraInfo;
  intrinsic_mat : option (list NumPy.float64);
  distortion : option (list NumPy.float64);
  detector : Z }.

Section Node.
Context `{External}.
Variable w : Z.

(** *** [__init__], lines 144-154: the dictionary id *)

Definition getattribute (name : string) : option PyValue :=
  match find (fun a => String.eqb (fst a) name) cv2_aruco with
  | Some a => Some (snd a)
  | None => None
  end.

Definition same_type (a b : PyValue) : bool :=
  match a, b with
  | PyInt _, PyInt _ => true
  | PyOther, PyOther => true
  | _, _ => false
  end.

(** The [try] body.  It yields the binding of the local [dictionary_id]
    ([None] while unbound) and whether [AttributeError] was raised. *)
Definition lookup_dictionary_id (name : string) : option PyValue * bool :=
  match getattribute name with
  | None => (None, true)
  | Some v =>
      match getattribute "DICT_5X5_100" with
      | None => (Some v, true)
      | Some t => (Some v, negb (same_type v t))
      end
  end.

Definition newline : string := String (Ascii.ascii_of_nat 10) EmptyString.

Definition dict_options : string :=
  String.concat newline
    (filter (String.prefix "DICT") (map fst cv2_aruco)).

Definition init (p : Parameters) : list Event * Outcome ArucoNode :=
  let log1 :=
    [Log INFO (MarkerSize (p_marker_size p));
     Log INFO (MarkerType (p_aruco_dictionary_id p));
     Log INFO (ImageTopic (p_image_topic p));
     Log INFO (ImageInfoTopic (p_camera_info_topic p))] in
  let '(dictionary_id, failed) := lookup_dictionary_id (p_aruco_dictionary_id p) in
  let log2 :=
    if failed then
      [Log ERROR (BadDictionaryId (p_aruco_dictionary_id p));
       Log ERROR (ValidOptions dict_options)]
    else [] in
  let setup :=
    [CreateSubscription (p_camera_info_topic p);
     CreateSubscription (p_image_topic p);
     CreatePublisher "aruco_poses";
     CreatePublisher "aruco_markers";
     CreatePublisher "can_frame"] in
  match dictionary_id with
  | None => (log1 ++ log2 ++ setup, Raised UnboundLocalError)
  | Some v =>
      match getPredefinedDictionary v with
      | Raised e => (log1 ++ log2 ++ setup, Raised e)
      | Returned dictionary =>
          (log1 ++ log2 ++ setup,
           Returned {| marker_size := p_marker_size p;
                       camera_frame := p_camera_frame p;
                       imshow_isshow := p_imshow_isshow p;
                       id_whitelist := p_id_whitelist p;
                       info_sub := true;
                       info_msg := None;
                       intrinsic_mat := None;
                       distortion := None;
                       detector := dictionary |})
      end
  end.

(** *** [info_callback] *)

Definition info_callback (self : ArucoNode) (msg : CameraInfo)
  : ArucoNode * list Event :=
  ({| marker_size := marker_size self;
      camera_frame := camera_frame self;
      imshow_isshow := imshow_isshow self;
      id_whitelist := id_whitelist self;
      info_sub := false;
      info_msg := Some msg;
      intrinsic_mat := Some (k msg);
      distortion := Some (d msg);
      detector := detector self |},
   [Log INFO CameraInfoReceived; DestroySubscription]).

(** *** [image_callback] *)

(** Line 224: [marker_id in self.id_whitelist or len(self.id_whitelist) == 0] *)
Definition accepted (id_whitelist : list Z) (marker_id : Z) : bool :=
  existsb (Z.eqb marker_id) id_whitelist || (List.length id_whitelist =? 0)%nat.

(** Lines 225-237 *)
Definition make_pose (m : Detection) : Pose :=
  {| position := det_tvec m; orientation := quaternion_from_rvec (det_rvec m) |}.

(** One iteration of the loop of lines 223-241 on the pair
    ([pose_array], [markers]). *)
Definition collect_step (id_whitelist : list Z)
    (acc : PoseArray * ArucoMarkers) (m : Detection) : PoseArray * ArucoMarkers :=
  let '(pose_array, markers) := acc in
  if accepted id_whitelist (det_id m) then
    let pose := make_pose m in
    ({| pa_header := pa_header pose_array;
        poses := poses pose_array ++ [pose] |},
     {| m_header := m_header markers;
        marker_ids := marker_ids markers ++ [det_id m];
        m_poses := m_poses markers ++ [pose] |})
  else acc.

Definition collect (id_whitelist : list Z) (hdr : Header) (ms : list Detection)
  : PoseArray * ArucoMarkers :=
  fold_left (collect_step id_whitelist) ms
    ({| pa_header := hdr; poses := [] |},
     {| m_header := hdr; marker_ids := []; m_poses := [] |}).

Definition with_data (c : CommunicationFrame) (data : list Z) : CommunicationFrame :=
  {| can_header := can_header c; can_id := can_id c; can_frame := can_frame c;
     can_format := can_format c; can_data := data |}.

Definition euler_of (pose : Pose) : Vec3 :=
  let o := orientation pose in
  as_euler_angles {| q_w := orientation_w o; q_x := orientation_x o;
                     q_y := orientation_y o; q_z := orientation_z o |}.

(** One iteration of the loop of lines 253-279.  [can_topic] is one
    message object, modified in place before each of the two [publish]
    calls; [publish] serialises its argument, so each event holds the
    message as it is at that call. *)
Definition encode_step (st : CommunicationFrame * list Event) (pose : Pose)
  : CommunicationFrame * list Event :=
  let '(can_topic, out) := st in
  let euler := euler_of pose in
  let r := wire_angle w euler in
  let px := quantize (position_x pose) in
  let pz := quantize (position_z pose) in
  let can_topic1 := with_data can_topic (position_frame w px pz) in
  let can_topic2 := with_data can_topic1 (orientation_frame r) in
  (can_topic2,
   out ++ [Print euler; Log INFO (Position px pz r);
           CanPublish can_topic1; CanPublish can_topic2]).

Definition image_callback (self : ArucoNode) (img_msg : ImageMsg)
  : ArucoNode * list Event :=
  match info_msg self with
  | None => (self, [Log WARN NoCameraInfo])
  | Some info =>
      let frame :=
        if String.eqb (camera_frame self) EmptyString
        then frame_id (info_header info) else camera_frame self in
      let hdr := {| stamp := stamp (img_header img_msg); frame_id := frame |} in
      let found :=
        detectMarkers img_msg (marker_size self)
          (intrinsic_mat self) (distortion self) in
      let shown := if imshow_isshow self then [Imshow] else [] in
      match found with
      | None => (self, Detect :: shown)
      | Some ms =>
          let '(pose_array, markers) := collect (id_whitelist self) hdr ms in
          if (0 <? List.length (marker_ids markers))%nat then
            let can_topic :=
              {| can_header := img_header img_msg; can_id := 65;
                 can_frame := CAN_DATA; can_format := STANDARD_FORMAT;
                 can_data := [] |} in
            let '(_, sent) :=
              fold_left encode_step (poses pose_array) (can_topic, []) in
            (self, Detect :: shown ++ sent ++
                     [PosesPublish pose_array; MarkersPublish markers])
          else (self, Detect :: shown)
      end
  end.


(** *** The shape of one cycle's output *)

(** The detections that pass line 224, in the order of detection. *)
Definition accepted_markers (wl : list Z) (ms : list Detection) : list Detection :=
  filter (fun m => accepted wl (det_id m)) ms.

(** The CAN message as set up in lines 244-249, carrying [data]. *)
Definition frame_msg (hdr : Header) (data : list Z) : CommunicationFrame :=
  {| can_header := hdr; can_id := 65; can_frame := CAN_DATA;
     can_format := STANDARD_FORMAT; can_data := data |}.

Definition position_msg (hdr : Header) (pose : Pose) : CommunicationFrame :=
  frame_msg hdr
    (position_frame w (quantize (position_x pose)) (quantize (position_z pose))).

Definition orientation_msg (hdr : Header) (pose : Pose) : CommunicationFrame :=
  frame_msg hdr (orientation_frame (wire_angle w (euler_of pose))).

Definition frame_pair (hdr : Header) (pose : Pose) : list Event :=
  [CanPublish (position_msg hdr pose); CanPublish (orientation_msg hdr pose)].

Definition cycle_header (self : ArucoNode) (info : CameraInfo) (img : ImageMsg) : Header :=
  {| stamp := stamp (img_header img);
     frame_id := if String.eqb (camera_frame self) EmptyString
                 then frame_id (info_header info) else camera_frame self |}.

End Node.

(** ** The process: [main] and the executor

    [main] (lines 284-290) initialises rclpy, constructs the node, spins
    it, then destroys it and shuts rclpy down.  [rclpy.spin] hands each
    arriving message to the callback of its subscription, one after the
    other; a message on a subscription that has been destroyed is not
    delivered.  A run is taken over the finite list of messages delivered
    before [spin] returns; [spin] is taken to return.  A run that an
    interrupt or an exception ends inside [spin] never reaches lines
    289-290, and what is proved of [main] below is about the messages
    delivered, not about [spin] returning. *)

Inductive Message :=
| InfoArrives (msg : CameraInfo)
| ImageArrives (img : ImageMsg).

Inductive ProcessEvent :=
| RclpyInit
| NodeEvent (e : Event)
| DestroyNode
| RclpyShutdown.

Section Process.
Context `{External}.
Variable w : Z.

Definition dispatch (self : ArucoNode) (m : Message) : ArucoNode * list Event :=
  match m with
  | InfoArrives msg =>
      if info_sub self then info_callback self msg else (self, [])
  | ImageArrives img => image_callback w self img
  end.

Fixpoint spin (self : ArucoNode) (inbox : list Message) : ArucoNode * list Event :=
  match inbox with
  | [] => (self, [])
  | m :: rest =>
      let '(self1, t1) := dispatch self m in
      let '(self2, t2) := spin self1 rest in
      (self2, t1 ++ t2)
  end.

Definition main (p : Parameters) (inbox : list Message)
  : list ProcessEvent * Outcome unit :=
  let '(t0, node) := init p in
  match node with
  | Raised e => (RclpyInit :: map NodeEvent t0, Raised e)
  | Returned node =>
      let '(_, t1) := spin node inbox in
      (RclpyInit :: map NodeEvent (t0 ++ t1) ++ [DestroyNode; RclpyShutdown],
       Returned tt)
  end.

(** The markers of one image that pass the white-list (none when the
    detector reports no ids). *)
Definition cycle_accepted (self : ArucoNode) (img : ImageMsg) : list Detection :=
  match detectMarkers img (marker_size self) (intrinsic_mat self) (distortion self) with
  | None => []
  | Some ms => accepted_markers (id_whitelist self) ms
  end.

(** What one iteration of the loop of lines 253-279 does for [pose]. *)
Definition pose_events (hdr : Header) (pose : Pose) : list Event :=
  [Print (euler_of pose);
   Log INFO (Position (quantize (position_x pose)) (quantize (position_z pose))
                      (wire_angle w (euler_of pose)));
   CanPublish (position_msg w hdr pose);
   CanPublish (orientation_msg w hdr pose)].

(** Two poses that agree in what line 253-279 reads of them: x, z and the
    second Euler angle. *)
Definition same_wire_pose (a b : Pose) : Prop :=
  position_x a = position_x b /\ position_z a = position_z b /\
  snd (fst (euler_of a)) = snd (fst (euler_of b)).

(** The number of markers accepted over the images of a run, for a node
    whose state is [self] throughout. *)
Definition accepted_in_run (self : ArucoNode) (inbox : list Message) : nat :=
  list_sum (map (fun m => match m with
                          | ImageArrives img => List.length (cycle_accepted self img)
                          | InfoArrives _ => 0%nat
                          end) inbox).

End Process.

Definition bytes_upto (n : nat) : list Z := map Z.of_nat (seq 0 n).


(** A concrete set of collaborators, used to run the node. *)
Definition f64 (m : Z) (e : Z) : NumPy.float64 := binary_normalize NumPy.prec NumPy.emax m e false.

Definition sample_marker (id : Z) : Detection :=
  {| det_id := id;
     det_rvec := (f64 0 0, f64 0 0, f64 0 0);
     det_tvec := (f64 5 (-4), f64 0 0, f64 5 (-2)) |}.

Definition sample_external : External :=
  {| cv2_aruco := [("DICT_4X4_50", PyInt 0); ("DICT_5X5_100", PyInt 5);
                   ("DICT_5X5_250", PyInt 6); ("Dictionary", PyOther);
                   ("detectMarkers", PyOther)]%string;
     getPredefinedDictionary :=
       fun v => match v with PyInt n => Returned n | PyOther => Raised cv2_error end;
     detectMarkers := fun img _ _ _ =>
       match img_data img with
       | [] => None
       | ids => Some (map sample_marker ids)
       end;
     quaternion_from_rvec := fun _ =>
       {| orientation_x := f64 0 0; orientation_y := f64 0 0;
          orientation_z := f64 0 0; orientation_w := f64 1 0 |};
     as_euler_angles := fun q => (f64 0 0, f64 1 (-5), f64 0 0) |}.

Definition sample_parameters (dictionary_id : string) (whitelist : list Z) : Parameters :=
  {| p_marker_size := f64 1 (-4);
     p_aruco_dictionary_id := dictionary_id;
     p_image_topic := "/camera/image_raw";
     p_camera_info_topic := "/camera/camera_info";
     p_camera_frame := "";
     p_imshow_isshow := true;
     p_id_whitelist := whitelist |}.

Definition sample_info : CameraInfo :=
  {| info_header := {| stamp := 1; frame_id := "camera" |}; k := []; d := [] |}.

Definition sample_node (calibrated : bool) (whitelist : list Z) : ArucoNode :=
  {| marker_size := f64 1 (-4);
     camera_frame := "";
     imshow_isshow := true;
     id_whitelist := whitelist;
     info_sub := negb calibrated;
     info_msg := if calibrated then Some sample_info else None;
     intrinsic_mat := if calibrated then Some [] else None;
     distortion := if calibrated then Some [] else None;
     detector := 6 |}.

Definition sample_image (ids : list Z) : ImageMsg :=
  {| img_header := {| stamp := 7; frame_id := "cam" |}; img_data := ids |}.

(** ** What the statements below speak about *)

(** The messages handed to the three publishers, in the order of the calls. *)
Definition is_publication (e : Event) : bool :=
  match e with
  | CanPublish _ | PosesPublish _ | MarkersPublish _ => true
  | _ => false
  end.

Definition publications (t : list Event) : list Event := filter is_publication t.

Definition wire_frames (t : list Event) : list CommunicationFrame :=
  flat_map (fun e => match e with CanPublish f => [f] | _ => [] end) t.

(** Counting the calls to the detector and to the preview window. *)
Definition is_detect (e : Event) : bool :=
  match e with Detect => true | _ => false end.

Definition is_imshow (e : Event) : bool :=
  match e with Imshow => true | _ => false end.

Definition count_occ_detect (t : list Event) : nat := List.length (filter is_detect t).
Definition count_occ_imshow (t : list Event) : nat := List.length (filter is_imshow t).

(** The first camera info of an inbox, and inboxes that hold none. *)
Definition first_info (inbox : list Message) : option CameraInfo :=
  match find (fun m => match m with InfoArrives _ => true | _ => false end) inbox with
  | Some (InfoArrives msg) => Some msg
  | _ => None
  end.

Definition only_images (inbox : list Message) : Prop :=
  forall m, In m inbox -> exists img, m = ImageArrives img.

(** The node events of a process trace. *)
Definition node_events (t : list ProcessEvent) : list Event :=
  flat_map (fun e => match e with NodeEvent e => [e] | _ => [] end) t.

(** How a receiver reads the two 16-bit fields of a position payload and
    the field of an orientation payload: it undoes the offset of 128 on the
    low byte of x, and the carry that the offset sends into the high byte of
    z when the low byte of z is 128 or more. *)
Definition read_x (data : list Z) : Z :=
  NumPy.wrap 16 (256 * nth 1 data 0 + (nth 2 data 0 - 128) mod 256).

Definition read_z (data : list Z) : Z :=
  let carry := if 128 <=? nth 4 data 0 then 1 else 0 in
  NumPy.wrap 16 (256 * ((nth 3 data 0 - carry) mod 256) + nth 4 data 0).

Definition read_angle (data : list Z) : Z :=
  256 * nth 1 data 0 + nth 2 data 0.

(** Negation and absolute value of a binary64. *)
Definition fneg (f : NumPy.float64) : NumPy.float64 := SFopp f.
Definition fabs (f : NumPy.float64) : NumPy.float64 := SFabs f.

(** The payloads handed to [can_pub] during a trace whose first byte -- the
    tag -- is [tag], in the order of the [publish] calls. *)
Definition payloads_with_tag (tag : Z) (t : list Event) : list (list Z) :=
  filter (fun data => nth 0 data 0 =? tag) (map can_data (wire_frames t)).

(** An integer [n] is a nearest integer of the rational [v]. *)
Definition nearest_int (v : Q) (n : Z) : Prop := (Qabs (v - inject_Z n) <= 1 # 2)%Q.

(** An integer [n] is [v] with its fractional part discarded. *)
Definition truncation_of (v : Q) (n : Z) : Prop :=
  (Qabs (inject_Z n) <= Qabs v)%Q /\ (Qabs v < Qabs (inject_Z n) + 1)%Q /\
  (0 <= inject_Z n * v)%Q.

Example of_int_100 : NumPy.of_int 100 = S754_finite false 7036874417766400 (-46).
Proof. reflexivity. Qed.

(** [NPY_PI] is within half a unit in the last place (2^-52) of the decimal
    constant of [npy_math.h]. *)
Example NPY_PI_nearest :
  (Qabs (NumPy.to_Q NumPy.NPY_PI
         - (3141592653589793238462643383279502884 # 1000000000000000000000000000000000000))
   < 1 # 4503599627370496)%Q.
Proof. vm_compute. reflexivity. Qed.

Example rad2deg_factor_value :
  NumPy.rad2deg_factor = S754_finite false 8063664102031864 (-47).
Proof. vm_compute. reflexivity. Qed.

Example position_frame_fixture :
  position_frame 32 30 120 = [2; 0; 158; 0; 120].
Proof. vm_compute. reflexivity. Qed.

(** ** Bit-level facts about the payload bytes *)

Lemma wrap_congr (w n : Z) : 0 < w -> NumPy.wrap w n mod 2 ^ w = n mod 2 ^ w.
Proof.
  intros Hw. unfold NumPy.wrap.
  assert (Hp : 2 ^ w = 2 * 2 ^ (w - 1)).
  { replace w with (Z.succ (w - 1)) at 1 by lia. apply Z.pow_succ_r. lia. }
  assert (0 < 2 ^ (w - 1)) by (apply Z.pow_pos_nonneg; lia).
  rewrite Zminus_mod, Zmod_mod, <- Zminus_mod.
  f_equal. lia.
Qed.

Lemma wrap_low_bits (w k n : Z) :
  0 <= k <= w -> 0 < w -> NumPy.wrap w n mod 2 ^ k = n mod 2 ^ k.
Proof.
  intros Hk Hw.
  assert (D : (2 ^ k | 2 ^ w)).
  { exists (2 ^ (w - k)). rewrite <- Z.pow_add_r by lia. f_equal. lia. }
  assert (0 < 2 ^ k) by (apply Z.pow_pos_nonneg; lia).
  assert (0 < 2 ^ w) by (apply Z.pow_pos_nonneg; lia).
  rewrite <- (Z.mod_mod_divide (NumPy.wrap w n) (2 ^ w) (2 ^ k)) by assumption.
  rewrite wrap_congr by assumption.
  apply Z.mod_mod_divide; assumption.
Qed.

Lemma byte0_mod (n : Z) : Z.land n 255 = n mod 2 ^ 8.
Proof. change 255 with (Z.ones 8). apply Z.land_ones. lia. Qed.

Lemma byte1_mod (n : Z) : Z.land (Z.shiftr n 8) 255 = (n mod 2 ^ 16) / 2 ^ 8.
Proof.
  rewrite byte0_mod, Z.shiftr_div_pow2 by lia.
  change (2 ^ 16) with (2 ^ 8 * 2 ^ 8).
  rewrite Z.rem_mul_r by lia.
  rewrite Z.mul_comm, Z.div_add by lia.
  rewrite (Z.div_small (n mod 2 ^ 8)) by (apply Z.mod_pos_bound; lia).
  reflexivity.
Qed.

Lemma byte0_wrap (w n : Z) : 8 <= w -> Z.land (NumPy.wrap w n) 255 = Z.land n 255.
Proof. intros. rewrite !byte0_mod. apply wrap_low_bits; lia. Qed.

Lemma byte1_wrap (w n : Z) :
  16 <= w -> Z.land (Z.shiftr (NumPy.wrap w n) 8) 255 = Z.land (Z.shiftr n 8) 255.
Proof. intros. rewrite !byte1_mod. f_equal. apply wrap_low_bits; lia. Qed.

Lemma byte_range (n : Z) : 0 <= Z.land n 255 < 256.
Proof. rewrite byte0_mod. apply Z.mod_pos_bound. lia. Qed.

(** Storing a byte in a float64 array and casting back to uint8 loses nothing. *)
Lemma uint8_roundtrip_all :
  forallb (fun b => NumPy.astype_uint8 (NumPy.of_int b) =? b) (bytes_upto 256) = true.
Proof. vm_compute. reflexivity. Qed.

Lemma uint8_roundtrip (b : Z) :
  0 <= b < 256 -> NumPy.astype_uint8 (NumPy.of_int b) = b.
Proof.
  intros Hb. apply Z.eqb_eq.
  pose proof uint8_roundtrip_all as H. rewrite forallb_forall in H. apply H.
  unfold bytes_upto. apply in_map_iff. exists (Z.to_nat b). split; [lia|].
  apply in_seq. lia.
Qed.

Lemma uint8_of_byte (n : Z) : NumPy.astype_uint8 (NumPy.of_int (Z.land n 255)) = Z.land n 255.
Proof. apply uint8_roundtrip, byte_range. Qed.

(** ** The payload layout *)

(** The offset is not applied to the high byte of [qx]: with it the byte
    would differ, already at [qx = 128]. *)
Example position_frame_offset_asymmetry :
  nth 1 (position_frame 32 128 0) 0 = 0 /\
  Z.land (Z.shiftr (128 + 128) 8) 255 = 1.
Proof. vm_compute. split; reflexivity. Qed.

Lemma orientation_frame_bytes (r : Z) :
  orientation_frame r = [3; Z.land (Z.shiftr r 8) 255; Z.land r 255; 0; 0].
Proof.
  unfold orientation_frame, data_array2, tolist_uint8, np_append.
  cbn [app map]. rewrite !uint8_of_byte.
  rewrite (uint8_roundtrip 3), (uint8_roundtrip 0) by lia. reflexivity.
Qed.


(** ** The accepted markers *)

Section NodeFacts.
Context `{External}.
Variable w : Z.

Lemma collect_step_fold (wl : list Z) (ms : list Detection) :
  forall hdr ps ids,
    fold_left (collect_step wl) ms
      ({| pa_header := hdr; poses := ps |},
       {| m_header := hdr; marker_ids := ids; m_poses := ps |}) =
    ({| pa_header := hdr;
        poses := ps ++ map make_pose (accepted_markers wl ms) |},
     {| m_header := hdr;
        marker_ids := ids ++ map det_id (accepted_markers wl ms);
        m_poses := ps ++ map make_pose (accepted_markers wl ms) |}).
Proof.
  induction ms as [|m ms IH]; intros hdr ps ids; cbn [fold_left accepted_markers filter map].
  - now rewrite !app_nil_r.
  - unfold collect_step at 2. cbn [pa_header poses m_header marker_ids m_poses].
    destruct (accepted wl (det_id m)) eqn:A.
    + rewrite IH. cbn [map]. now rewrite <- !app_assoc.
    + apply IH.
Qed.

Lemma collect_filter (wl : list Z) (hdr : Header) (ms : list Detection) :
  collect wl hdr ms =
    ({| pa_header := hdr; poses := map make_pose (accepted_markers wl ms) |},
     {| m_header := hdr;
        marker_ids := map det_id (accepted_markers wl ms);
        m_poses := map make_pose (accepted_markers wl ms) |}).
Proof. unfold collect. now rewrite collect_step_fold. Qed.

Lemma accepted_empty (i : Z) : accepted [] i = true.
Proof. reflexivity. Qed.

Lemma accepted_nonempty (wl : list Z) (i : Z) :
  wl <> [] -> accepted wl i = existsb (Z.eqb i) wl.
Proof.
  intros Hwl. unfold accepted. destruct wl as [|a wl]; [congruence|].
  cbn [List.length Nat.eqb]. apply orb_false_r.
Qed.

Lemma existsb_eqb_In (wl : list Z) (i : Z) : existsb (Z.eqb i) wl = true <-> In i wl.
Proof.
  rewrite existsb_exists. split.
  - intros [x [Hx E]]. apply Z.eqb_eq in E. now subst.
  - intros Hi. exists i. split; [assumption | apply Z.eqb_refl].
Qed.

(** C5: the ids kept by the loop of lines 223-241 are all detected ids when
    the white-list is empty, and otherwise the detected ids that occur in the
    white-list, in the order of detection; an id is kept exactly when it was
    detected and the list is empty or contains it. *)
Theorem whitelist_policy (wl : list Z) (hdr : Header) (ms : list Detection) :
  marker_ids (snd (collect wl hdr ms)) =
    match wl with
    | [] => map det_id ms
    | _ :: _ => filter (fun i => existsb (Z.eqb i) wl) (map det_id ms)
    end
  /\ (forall i, In i (marker_ids (snd (collect wl hdr ms))) <->
                In i (map det_id ms) /\ (wl = [] \/ In i wl))
  /\ poses (fst (collect wl hdr ms)) = map make_pose (accepted_markers wl ms)
  /\ marker_ids (snd (collect wl hdr ms)) = map det_id (accepted_markers wl ms).
Proof.
  rewrite collect_filter. cbn [fst snd marker_ids poses].
  assert (F : forall f, map det_id (filter (fun m => f (det_id m)) ms) =
                        filter f (map det_id ms)).
  { intros f. induction ms as [|m l IH]; [reflexivity|].
    cbn [filter map]. destruct (f (det_id m)); cbn [map]; now rewrite IH. }
  unfold accepted_markers. rewrite (F (accepted wl)).
  split; [|split; [|split; reflexivity]].
  - clear F. destruct wl as [|a wl'].
    + induction (map det_id ms) as [|i l IH]; [reflexivity|].
      cbn [filter]. rewrite accepted_empty. now f_equal.
    + apply filter_ext. intros i. apply accepted_nonempty. discriminate.
  - intros i. rewrite filter_In. split.
    + intros [Hd Hi]. split; [assumption|].
      destruct wl as [|a wl']; [now left | right].
      rewrite accepted_nonempty in Hi by discriminate. now apply existsb_eqb_In.
    + intros [Hd Hw]. split; [assumption|].
      destruct Hw as [-> | Hw]; [reflexivity|].
      unfold accepted. apply orb_true_iff. left. now apply existsb_eqb_In.
Qed.

(** ** The order of emission *)

Lemma encode_fold (hdr : Header) (ps : list Pose) :
  forall data out,
    exists data' sent,
      fold_left (encode_step w) ps (frame_msg hdr data, out) =
        (frame_msg hdr data', out ++ sent) /\
      publications sent = flat_map (frame_pair w hdr) ps.
Proof.
  induction ps as [|p ps IH]; intros data out.
  - exists data, []. cbn. now rewrite app_nil_r.
  - cbn [fold_left]. unfold encode_step at 2.
    change (with_data (with_data (frame_msg hdr data) ?a) ?b) with (frame_msg hdr b).
    change (with_data (frame_msg hdr data) ?a) with (frame_msg hdr a).
    match goal with
    | |- context [fold_left _ ps (frame_msg hdr ?dd, out ++ ?ev)] =>
        destruct (IH dd (out ++ ev)) as [data' [sent [E P]]];
        exists data', (ev ++ sent)
    end.
    split.
    + rewrite E. now rewrite <- app_assoc.
    + unfold publications in *. rewrite filter_app, P. reflexivity.
Qed.

Lemma length_pairs {A B : Type} (f g : A -> B) (l : list A) :
  List.length (flat_map (fun a => [f a; g a]) l) = (2 * List.length l)%nat.
Proof. induction l as [|a l IH]; cbn [flat_map app List.length]; lia. Qed.

Lemma publications_app (a b : list Event) :
  publications (a ++ b) = publications a ++ publications b.
Proof. apply filter_app. Qed.

Lemma publications_shown (b : bool) :
  publications (if b then [Imshow] else []) = [].
Proof. now destruct b. Qed.

Lemma wire_frames_pairs (hdr : Header) (ps : list Pose) (tl : list Event) :
  wire_frames tl = [] ->
  wire_frames (flat_map (frame_pair w hdr) ps ++ tl) =
    flat_map (fun p => [position_msg w hdr p; orientation_msg w hdr p]) ps.
Proof.
  intros Htl. induction ps as [|p ps IH]; [exact Htl|].
  cbn [flat_map frame_pair app wire_frames].
  change (flat_map _ (flat_map (frame_pair w hdr) ps ++ tl))
    with (wire_frames (flat_map (frame_pair w hdr) ps ++ tl)).
  now rewrite IH.
Qed.

(** C6: in a cycle with at least one accepted marker the publications are,
    in this order, the position message and the orientation message of the
    first accepted marker, those of the second, and so on in the order of
    detection, followed by the pose array and the marker set; there are
    twice as many CAN messages as accepted markers. *)
Theorem frames_before_aggregates
    (self : ArucoNode) (info : CameraInfo) (img : ImageMsg) (ms : list Detection) :
  info_msg self = Some info ->
  detectMarkers img (marker_size self) (intrinsic_mat self) (distortion self) = Some ms ->
  (1 <= List.length (accepted_markers (id_whitelist self) ms))%nat ->
  let acc := accepted_markers (id_whitelist self) ms in
  let hdr := cycle_header self info img in
  publications (snd (image_callback w self img)) =
    flat_map (frame_pair w (img_header img)) (map make_pose acc) ++
    [PosesPublish {| pa_header := hdr; poses := map make_pose acc |};
     MarkersPublish {| m_header := hdr; marker_ids := map det_id acc;
                       m_poses := map make_pose acc |}]
  /\ wire_frames (snd (image_callback w self img)) =
       flat_map (fun p => [position_msg w (img_header img) p;
                           orientation_msg w (img_header img) p])
                (map make_pose acc)
  /\ List.length (wire_frames (snd (image_callback w self img))) =
       (2 * List.length acc)%nat.
Proof.
  intros Hinfo Hdet Hn acc hdr.
  assert (P : publications (snd (image_callback w self img)) =
    flat_map (frame_pair w (img_header img)) (map make_pose acc) ++
    [PosesPublish {| pa_header := hdr; poses := map make_pose acc |};
     MarkersPublish {| m_header := hdr; marker_ids := map det_id acc;
                       m_poses := map make_pose acc |}]).
  { unfold image_callback. rewrite Hinfo, Hdet, collect_filter.
    cbn [marker_ids poses]. rewrite length_map.
    fold acc. destruct (Nat.ltb_spec 0 (List.length acc)) as [_|Hz];
      [|unfold acc in Hz; lia].
    change {| can_header := img_header img; can_id := 65; can_frame := CAN_DATA;
              can_format := STANDARD_FORMAT; can_data := [] |}
      with (frame_msg (img_header img) []).
    destruct (encode_fold (img_header img) (map make_pose acc) [] [])
      as [data' [sent [E S]]].
    rewrite E. cbn [snd app].
    change (publications (Detect :: ?l)) with (publications l).
    rewrite !publications_app, publications_shown, S. reflexivity. }
  assert (W : forall t, wire_frames t = wire_frames (publications t)).
  { induction t as [|e t IH]; [reflexivity|].
    destruct e; cbn [publications filter is_publication wire_frames flat_map app];
      fold (publications t); fold (wire_frames (publications t)); fold (wire_frames t);
      now rewrite <- IH. }
  assert (F : wire_frames (snd (image_callback w self img)) =
       flat_map (fun p => [position_msg w (img_header img) p;
                           orientation_msg w (img_header img) p])
                (map make_pose acc)).
  { rewrite W, P. now apply wire_frames_pairs. }
  split; [exact P|]. split; [exact F|].
  rewrite F, length_pairs, length_map. reflexivity.
Qed.

(** C7: a cycle in which the detector finds nothing, or in which no
    detected marker is accepted, publishes nothing: no CAN message, no pose
    array, no marker set. *)
Theorem nothing_accepted_nothing_published
    (self : ArucoNode) (info : CameraInfo) (img : ImageMsg) :
  info_msg self = Some info ->
  match detectMarkers img (marker_size self) (intrinsic_mat self) (distortion self) with
  | None => True
  | Some ms => accepted_markers (id_whitelist self) ms = []
  end ->
  publications (snd (image_callback w self img)) = [] /\
  wire_frames (snd (image_callback w self img)) = [].
Proof.
  intros Hinfo Hnone.
  assert (E : snd (image_callback w self img) =
              Detect :: (if imshow_isshow self then [Imshow] else [])).
  { unfold image_callback. rewrite Hinfo.
    destruct (detectMarkers img _ _ _) as [ms|]; [|reflexivity].
    rewrite collect_filter. cbn [marker_ids]. rewrite Hnone. reflexivity. }
  rewrite E. destruct (imshow_isshow self); split; reflexivity.
Qed.

(** C8: an image that arrives while no camera info has been stored is
    dropped: the call logs one warning and does nothing else -- the detector
    is not invoked, nothing is shown or published -- and the node is left as
    it was. *)
Theorem image_without_calibration_skipped (self : ArucoNode) (img : ImageMsg) :
  info_msg self = None ->
  image_callback w self img = (self, [Log WARN NoCameraInfo])
  /\ ~ In Detect (snd (image_callback w self img))
  /\ publications (snd (image_callback w self img)) = []
  /\ wire_frames (snd (image_callback w self img)) = []
  /\ fst (image_callback w self img) = self.
Proof.
  intros Hinfo. unfold image_callback. rewrite Hinfo. cbn.
  repeat split; try reflexivity. intros [E | []]. discriminate.
Qed.

(** A freshly constructed node has no camera info, and [info_callback]
    stores it for good. *)
Lemma init_no_calibration (p : Parameters) (t : list Event) (node : ArucoNode) :
  init p = (t, Returned node) -> info_msg node = None.
Proof.
  unfold init. destruct (lookup_dictionary_id _) as [[v|] failed]; [|discriminate].
  destruct (getPredefinedDictionary v); [|discriminate].
  intros E. injection E as _ <-. reflexivity.
Qed.

Lemma info_callback_calibrates (self : ArucoNode) (msg : CameraInfo) :
  info_msg (fst (info_callback self msg)) = Some msg.
Proof. reflexivity. Qed.

(** ** The dictionary id at construction *)

Lemma lookup_unknown (name : string) :
  getattribute name = None -> lookup_dictionary_id name = (None, true).
Proof. unfold lookup_dictionary_id. now intros ->. Qed.

(** C9, as the code behaves: when the configured dictionary id is not an
    attribute of [cv2.aruco], the constructor logs the error and the list of
    valid options, sets up subscriptions and publishers, and then raises
    [UnboundLocalError] at line 175, where [dictionary_id] is read without
    having been bound. *)
Theorem init_unknown_dictionary_raises (p : Parameters) :
  getattribute (p_aruco_dictionary_id p) = None ->
  snd (init p) = Raised UnboundLocalError
  /\ In (Log ERROR (BadDictionaryId (p_aruco_dictionary_id p))) (fst (init p))
  /\ In (Log ERROR (ValidOptions dict_options)) (fst (init p)).
Proof.
  intros Hn. unfold init. rewrite (lookup_unknown _ Hn). cbn [fst snd].
  split; [reflexivity|]. split; apply in_or_app; right; apply in_or_app; left.
  - now left.
  - right. now left.
Qed.

End NodeFacts.

(** ** Float to integer conversion discards the fractional part *)

Lemma shiftl_truncates (m : positive) (e : Z) :
  let a := Z.shiftl (Zpos m) e in
  let v := if 0 <=? e then inject_Z (Zpos m * 2 ^ e) else Zpos m # Z.to_pos (2 ^ (- e)) in
  0 <= a /\ (inject_Z a <= v)%Q /\ (v < inject_Z a + 1)%Q.
Proof.
  intros a v. subst a v. destruct (Z.leb_spec 0 e) as [He|He].
  - rewrite Z.shiftl_mul_pow2 by assumption.
    assert (0 < 2 ^ e) by (apply Z.pow_pos_nonneg; lia).
    split; [nia|]. unfold Qle, Qlt. cbn. split; lia.
  - rewrite Z.shiftl_div_pow2 by lia.
    assert (P : 0 < 2 ^ (- e)) by (apply Z.pow_pos_nonneg; lia).
    pose proof (Z.div_mod (Zpos m) (2 ^ (- e)) ltac:(lia)) as D.
    pose proof (Z.mod_pos_bound (Zpos m) (2 ^ (- e)) P) as B.
    assert (0 <= Zpos m / 2 ^ (- e)) by (apply Z.div_pos; lia).
    split; [assumption|]. unfold Qle, Qlt. cbn.
    rewrite Z2Pos.id by assumption. split; nia.
Qed.

Lemma trunc_truncation (f : NumPy.float64) (z : Z) :
  NumPy.trunc f = Some z -> truncation_of (NumPy.to_Q f) z.
Proof.
  destruct f as [s|s| |s m e]; cbn [NumPy.trunc]; try discriminate.
  - intros E. injection E as <-. unfold truncation_of. cbn.
    repeat split; unfold Qle, Qlt; cbn; lia.
  - intros E. injection E as <-.
    destruct (shiftl_truncates m e) as [A [L U]].
    unfold NumPy.to_Q. unfold truncation_of.
    set (a := Z.shiftl (Zpos m) e) in *.
    destruct (0 <=? e); destruct s; revert L U; unfold Qle, Qlt, Qabs, Qmult, Qplus, inject_Z;
      cbn [Qnum Qden]; intros L U; repeat split; try nia.
Qed.

Lemma int32_convertible (f : NumPy.float64) :
  NumPy.convertible f = true -> NumPy.trunc f = Some (NumPy.int32 f).
Proof.
  unfold NumPy.convertible, NumPy.int32.
  destruct (NumPy.trunc f) as [z|]; [|discriminate]. now intros ->.
Qed.

Lemma int32_truncation (f : NumPy.float64) :
  NumPy.convertible f = true -> truncation_of (NumPy.to_Q f) (NumPy.int32 f).
Proof. intros C. apply trunc_truncation, int32_convertible, C. Qed.

Lemma wrap_small (w n : Z) :
  0 < w -> - 2 ^ (w - 1) <= n < 2 ^ (w - 1) -> NumPy.wrap w n = n.
Proof.
  intros Hw Hn. unfold NumPy.wrap.
  assert (Hp : 2 ^ w = 2 * 2 ^ (w - 1)).
  { replace w with (Z.succ (w - 1)) at 1 by lia. apply Z.pow_succ_r. lia. }
  rewrite Z.mod_small by lia. lia.
Qed.

Lemma pow2_mono (a b : Z) : 0 <= a <= b -> 2 ^ a <= 2 ^ b.
Proof. intros. apply Z.pow_le_mono_r; lia. Qed.

(** C1, as the code behaves: the quantised coordinates are the binary64
    products [position.x * 100] and [position.z * 100] with the fractional
    part discarded (truncation toward zero, not rounding), whenever those
    products are finite and within the int32 range. *)
Theorem quantize_truncates (pose : Pose) :
  NumPy.convertible (NumPy.fmul (position_x pose) (NumPy.of_int 100)) = true ->
  NumPy.convertible (NumPy.fmul (position_z pose) (NumPy.of_int 100)) = true ->
  truncation_of (NumPy.to_Q (NumPy.fmul (position_x pose) (NumPy.of_int 100)))
                (quantize (position_x pose)) /\
  truncation_of (NumPy.to_Q (NumPy.fmul (position_z pose) (NumPy.of_int 100)))
                (quantize (position_z pose)).
Proof. intros Cx Cz. split; apply int32_truncation; assumption. Qed.

(** C1, as stated, fails for the position (0.3984375, 0, 1.2578125): the
    products are exactly 39.84375 and 125.78125, the code yields 39 and 125,
    and neither is a nearest integer of its product. *)
Lemma quantize_is_not_rounding :
  let x := f64 51 (-7) in
  let z := f64 161 (-7) in
  (NumPy.to_Q (NumPy.fmul x (NumPy.of_int 100)) == 1275 # 32)%Q /\
  (NumPy.to_Q (NumPy.fmul z (NumPy.of_int 100)) == 4025 # 32)%Q /\
  quantize x = 39 /\ quantize z = 125 /\
  ~ nearest_int (NumPy.to_Q (NumPy.fmul x (NumPy.of_int 100))) (quantize x) /\
  ~ nearest_int (NumPy.to_Q (NumPy.fmul z (NumPy.of_int 100))) (quantize z).
Proof.
  cbv zeta. repeat split; try (vm_compute; congruence).
Qed.

Lemma quantize_truncates_witness :
  let pose := make_pose (H := sample_external) (sample_marker 7) in
  NumPy.convertible (NumPy.fmul (position_x pose) (NumPy.of_int 100)) = true /\
  NumPy.convertible (NumPy.fmul (position_z pose) (NumPy.of_int 100)) = true /\
  quantize (position_x pose) = 31 /\
  truncation_of (NumPy.to_Q (NumPy.fmul (position_x pose) (NumPy.of_int 100))) 31.
Proof.
  cbv zeta. split; [reflexivity|]. split; [reflexivity|]. split; [reflexivity|].
  exact (proj1 (quantize_truncates
                  (make_pose (H := sample_external) (sample_marker 7)) eq_refl eq_refl)).
Defined.

(** C4, as the code behaves: the wire angle is 180 minus the binary64 value
    [rad2deg(euler[1])] with its fractional part discarded (truncation
    toward zero, not rounding), [euler] being the Euler decomposition of the
    pose's quaternion, whenever that value is finite, within the int32 range,
    and the difference fits the integer width. *)
Theorem wire_angle_truncates `{External} (w : Z) (pose : Pose) :
  let deg := NumPy.rad2deg (snd (fst (euler_of pose))) in
  32 <= w ->
  NumPy.convertible deg = true ->
  NumPy.is_int32 (180 - NumPy.int32 deg) = true ->
  wire_angle w (euler_of pose) = 180 - NumPy.int32 deg /\
  truncation_of (NumPy.to_Q deg) (NumPy.int32 deg).
Proof.
  intros deg Hw C R. split; [|now apply int32_truncation].
  unfold wire_angle. destruct (euler_of pose) as [[alpha beta] gamma].
  cbn [fst snd] in deg. fold deg. unfold NumPy.sub. apply wrap_small; [lia|].
  unfold NumPy.is_int32, NumPy.INT32_MIN, NumPy.INT32_MAX in R.
  apply andb_true_iff in R. destruct R as [R1 R2].
  apply Z.leb_le in R1, R2.
  pose proof (pow2_mono 31 (w - 1) ltac:(lia)). lia.
Qed.

(** C4, as stated, fails for the Euler angles (0, 0.03125, 0): the angle in
    degrees is 1.79..., the code yields 180 - 1 = 179, and 180 - 179 is not a
    nearest integer of 1.79.... *)
Lemma wire_angle_is_not_rounding :
  let euler := (f64 0 0, f64 1 (-5), f64 0 0) in
  let deg := NumPy.rad2deg (snd (fst euler)) in
  deg = S754_finite false 8063664102031864 (-52) /\
  wire_angle 32 euler = 179 /\ wire_angle 64 euler = 179 /\
  ~ nearest_int (NumPy.to_Q deg) (180 - wire_angle 32 euler) /\
  nearest_int (NumPy.to_Q deg) 2.
Proof.
  cbv zeta. repeat split; try (vm_compute; congruence).
Qed.

Lemma wire_angle_truncates_witness :
  let pose := make_pose (H := sample_external) (sample_marker 7) in
  32 <= 32 /\
  wire_angle 32 (euler_of (H := sample_external) pose) = 179.
Proof.
  cbv zeta. split; [lia|].
  exact (proj1 (wire_angle_truncates (H := sample_external) 32
                  (make_pose (H := sample_external) (sample_marker 7))
                  ltac:(lia) eq_refl eq_refl)).
Defined.

(** ** The statements on a concrete cycle *)

Lemma frames_before_aggregates_witness :
  let self := sample_node true [7; 9] in
  let img := sample_image [9; 3; 7] in
  map can_data (wire_frames (snd (image_callback (H := sample_external) 32 self img))) =
    [[2; 0; 159; 0; 125]; [3; 0; 179; 0; 0]; [2; 0; 159; 0; 125]; [3; 0; 179; 0; 0]]
  /\ List.length (wire_frames (snd (image_callback (H := sample_external) 32 self img))) = 4%nat.
Proof.
  cbv zeta. split; [vm_compute; reflexivity|].
  exact (proj2 (proj2 (frames_before_aggregates (H := sample_external) 32
           (sample_node true [7; 9]) sample_info (sample_image [9; 3; 7])
           (map sample_marker [9; 3; 7]) eq_refl eq_refl
           ltac:(vm_compute; lia)))).
Defined.

Lemma nothing_accepted_nothing_published_witness :
  publications (snd (image_callback (H := sample_external) 32
                       (sample_node true [7; 9]) (sample_image [3; 4]))) = []
  /\ publications (snd (image_callback (H := sample_external) 32
                       (sample_node true [7; 9]) (sample_image []))) = [].
Proof.
  split.
  - exact (proj1 (nothing_accepted_nothing_published (H := sample_external) 32
             (sample_node true [7; 9]) sample_info (sample_image [3; 4])
             eq_refl eq_refl)).
  - exact (proj1 (nothing_accepted_nothing_published (H := sample_external) 32
             (sample_node true [7; 9]) sample_info (sample_image [])
             eq_refl I)).
Defined.

Lemma image_without_calibration_skipped_witness :
  image_callback (H := sample_external) 32 (sample_node false []) (sample_image [7]) =
    (sample_node false [], [Log WARN NoCameraInfo]).
Proof.
  exact (proj1 (image_without_calibration_skipped (H := sample_external) 32
                  (sample_node false []) (sample_image [7]) eq_refl)).
Defined.

Lemma init_unknown_dictionary_raises_witness :
  snd (init (H := sample_external) (sample_parameters "DICT_BOGUS" [])) =
    Raised UnboundLocalError.
Proof.
  exact (proj1 (init_unknown_dictionary_raises (H := sample_external)
                  (sample_parameters "DICT_BOGUS" []) eq_refl)).
Defined.

Example init_valid_dictionary :
  snd (init (H := sample_external) (sample_parameters "DICT_5X5_250" [])) =
    Returned (sample_node false []).
Proof. reflexivity. Qed.

Example init_wrong_type_dictionary :
  init (H := sample_external) (sample_parameters "Dictionary" []) =
    ([Log INFO (MarkerSize (f64 1 (-4))); Log INFO (MarkerType "Dictionary");
      Log INFO (ImageTopic "/camera/image_raw");
      Log INFO (ImageInfoTopic "/camera/camera_info");
      Log ERROR (BadDictionaryId "Dictionary");
      Log ERROR (ValidOptions (String.concat newline
                   ["DICT_4X4_50"; "DICT_5X5_100"; "DICT_5X5_250"]%string));
      CreateSubscription "/camera/camera_info";
      CreateSubscription "/camera/image_raw";
      CreatePublisher "aruco_poses"; CreatePublisher "aruco_markers";
      CreatePublisher "can_frame"],
     Raised cv2_error).
Proof. reflexivity. Qed.

(** ** Binary64 multiplication: an upper bound on the rounded product *)

Section Rounding.
Local Abbreviation fexp := (SpecFloat.fexp NumPy.prec NumPy.emax).

Lemma pow2_pos (n : Z) : 0 <= n -> 0 < 2 ^ n.
Proof. intros. apply Z.pow_pos_nonneg; lia. Qed.

Lemma pow2_split (a b : Z) : 0 <= a -> 0 <= b -> 2 ^ (a + b) = 2 ^ a * 2 ^ b.
Proof. intros. apply Z.pow_add_r; assumption. Qed.

Lemma pow2_lt_inv (a b : Z) : 0 <= a -> 2 ^ a < 2 ^ b -> a < b.
Proof.
  intros Ha Hl. destruct (Z.lt_ge_cases b 0) as [Hb|Hb].
  - rewrite (Z.pow_neg_r 2 b Hb) in Hl. pose proof (pow2_pos a Ha). lia.
  - apply (Z.pow_lt_mono_r_iff 2); lia.
Qed.

Lemma digits2_pos_bounds (p : positive) :
  2 ^ (Zpos (digits2_pos p) - 1) <= Zpos p < 2 ^ Zpos (digits2_pos p).
Proof.
  induction p as [p IH|p IH|]; cbn [digits2_pos]; [| |cbn; lia];
    rewrite Pos2Z.inj_succ;
    replace (Z.succ (Zpos (digits2_pos p)) - 1) with (Z.succ (Zpos (digits2_pos p) - 1)) by lia;
    rewrite !Z.pow_succ_r by lia; lia.
Qed.

Lemma digits2_le (p : positive) (n : Z) :
  Zpos p < 2 ^ n -> Zpos (digits2_pos p) <= n.
Proof.
  intros Hp. destruct (digits2_pos_bounds p) as [L _].
  assert (Zpos (digits2_pos p) - 1 < n) by (apply pow2_lt_inv; lia). lia.
Qed.

Lemma shr_1_bound (mrs : shr_record) :
  0 <= shr_m mrs -> 0 <= shr_m (shr_1 mrs) /\ 2 * shr_m (shr_1 mrs) <= shr_m mrs.
Proof.
  destruct mrs as [m r s]. cbn [shr_m]. intros Hm.
  destruct m as [|[p|p|]|p]; cbn [shr_1 shr_m]; lia.
Qed.

Lemma iter_shr_1_bound (n : positive) :
  forall mrs, 0 <= shr_m mrs ->
    0 <= shr_m (iter_pos shr_1 n mrs) /\
    2 ^ Zpos n * shr_m (iter_pos shr_1 n mrs) <= shr_m mrs.
Proof.
  induction n as [n IH|n IH|]; intros mrs Hm; cbn [iter_pos].
  - destruct (shr_1_bound mrs Hm) as [A1 B1].
    destruct (IH _ A1) as [A2 B2]. destruct (IH _ A2) as [A3 B3].
    split; [assumption|].
    assert (E : 2 ^ Zpos n~1 = 2 * (2 ^ Zpos n * 2 ^ Zpos n)).
    { replace (Zpos n~1) with (1 + (Zpos n + Zpos n)) by lia.
      rewrite !pow2_split by lia. reflexivity. }
    rewrite E. pose proof (pow2_pos (Zpos n) ltac:(lia)). nia.
  - destruct (IH _ Hm) as [A2 B2]. destruct (IH _ A2) as [A3 B3].
    split; [assumption|].
    assert (E : 2 ^ Zpos n~0 = 2 ^ Zpos n * 2 ^ Zpos n).
    { replace (Zpos n~0) with (Zpos n + Zpos n) by lia.
      rewrite !pow2_split by lia. reflexivity. }
    rewrite E. pose proof (pow2_pos (Zpos n) ltac:(lia)). nia.
  - destruct (shr_1_bound mrs Hm). change (2 ^ 1) with 2. lia.
Qed.

Lemma shr_bound (mrs : shr_record) (e n : Z) :
  0 <= shr_m mrs ->
  0 <= shr_m (fst (shr mrs e n)) /\
  ((n <= 0 /\ shr mrs e n = (mrs, e)) \/
   (0 < n /\ snd (shr mrs e n) = e + n /\
    2 ^ n * shr_m (fst (shr mrs e n)) <= shr_m mrs)).
Proof.
  intros Hm. destruct n as [|n|n]; cbn [shr fst snd].
  - split; [assumption|]. left. split; [lia | reflexivity].
  - destruct (iter_shr_1_bound n mrs Hm) as [A B].
    split; [assumption|]. right. split; [lia|]. split; [reflexivity | assumption].
  - split; [assumption|]. left. split; [lia | reflexivity].
Qed.

Lemma round_nearest_even_bound (m : Z) (l : location) :
  m <= round_nearest_even m l <= m + 1.
Proof.
  destruct l as [|[| |]]; cbn [round_nearest_even]; try lia.
  destruct (Z.even m); lia.
Qed.

Lemma fexp_mono (a b : Z) : a <= b -> fexp a <= fexp b.
Proof. unfold SpecFloat.fexp. lia. Qed.


Lemma pow2_diff (a b : Z) : 0 <= a <= b -> 2 ^ b = 2 ^ (b - a) * 2 ^ a.
Proof. intros. rewrite <- pow2_split by lia. f_equal. lia. Qed.

(** Rounding a positive exact value [M * 2^E] of magnitude below [2^g]:
    the result is a zero or a finite float that exceeds the exact value by
    at most one unit in the last place of that magnitude. *)
Lemma binary_round_aux_bound (sx : bool) (M : positive) (E g : Z) :
  -1074 <= g <= 1023 -> E <= fexp g -> Zpos M < 2 ^ (g - E) ->
  binary_round_aux NumPy.prec NumPy.emax sx (Zpos M) E loc_Exact = S754_zero sx \/
  exists m3 e3,
    binary_round_aux NumPy.prec NumPy.emax sx (Zpos M) E loc_Exact = S754_finite sx m3 e3 /\
    E <= e3 /\ Zpos m3 * 2 ^ (e3 - E) <= Zpos M + 2 ^ (fexp g - E).
Proof.
  intros Hg HE HM.
  assert (Hfg : fexp g <= g /\ fexp g <= 970).
  { unfold SpecFloat.fexp, emin, NumPy.prec, NumPy.emax. lia. }
  assert (HD : Zdigits2 (Zpos M) + E <= g).
  { cbn [Zdigits2]. pose proof (digits2_le M (g - E) HM). lia. }
  pose proof (fexp_mono _ _ HD) as HF.
  unfold binary_round_aux, shr_fexp.
  set (n1 := fexp (Zdigits2 (Zpos M) + E) - E).
  destruct (shr_bound (shr_record_of_loc (Zpos M) loc_Exact) E n1 ltac:(cbn; lia))
    as [A1 C1].
  destruct (shr (shr_record_of_loc (Zpos M) loc_Exact) E n1) as [mrs1 e1] eqn:S1.
  cbn [fst snd] in A1, C1.
  set (m2 := round_nearest_even (shr_m mrs1) (loc_of_shr_record mrs1)).
  assert (K : 0 <= m2 /\ E <= e1 <= fexp g /\
              m2 * 2 ^ (e1 - E) <= Zpos M + 2 ^ (fexp g - E)).
  { pose proof (pow2_pos (fexp g - E) ltac:(lia)) as Pg.
    destruct C1 as [[Hn C1] | [Hn [He C1]]].
    - injection C1 as -> ->. subst m2.
      cbn [shr_m shr_record_of_loc loc_of_shr_record round_nearest_even].
      rewrite Z.sub_diag, Z.pow_0_r. lia.
    - pose proof (round_nearest_even_bound (shr_m mrs1) (loc_of_shr_record mrs1)) as R.
      fold m2 in R. cbn [shr_m shr_record_of_loc] in C1.
      assert (He1 : e1 = fexp (Zdigits2 (Zpos M) + E)) by (subst n1; lia).
      split; [lia|]. split; [lia|].
      replace (e1 - E) with n1 by lia.
      pose proof (pow2_diff n1 (fexp g - E) ltac:(lia)) as Dp.
      pose proof (pow2_pos n1 ltac:(lia)).
      pose proof (pow2_pos (fexp g - E - n1) ltac:(lia)). nia. }
  destruct K as [K0 [K1 K2]]. clearbody m2. clear S1 A1 C1 n1.
  set (n2 := fexp (Zdigits2 m2 + e1) - e1).
  destruct (shr_bound (shr_record_of_loc m2 loc_Exact) e1 n2 ltac:(cbn; lia))
    as [A3 C3].
  destruct (shr (shr_record_of_loc m2 loc_Exact) e1 n2) as [mrs3 e3] eqn:S3.
  cbn [fst snd] in A3, C3. cbn [shr_m shr_record_of_loc] in C3.
  assert (L : E <= e3 <= 971 /\ shr_m mrs3 * 2 ^ (e3 - E) <= m2 * 2 ^ (e1 - E)).
  { destruct C3 as [[Hn C3] | [Hn [He C3]]].
    - injection C3 as -> ->. cbn [shr_m shr_record_of_loc]. lia.
    - assert (He3 : e3 = fexp (Zdigits2 m2 + e1)) by (subst n2; lia).
      assert (Hd2 : Zdigits2 m2 + e1 <= 1024).
      { destruct m2 as [|p|p]; cbn [Zdigits2]; [lia| |lia].
        assert (Zpos p < 2 ^ (g + 1 - e1)).
        { pose proof (pow2_diff (e1 - E) (g + 1 - E) ltac:(lia)) as D1.
          replace (g + 1 - E - (e1 - E)) with (g + 1 - e1) in D1 by lia.
          pose proof (pow2_diff (fexp g - E) (g - E) ltac:(lia)) as D2.
          pose proof (pow2_pos (g - E - (fexp g - E)) ltac:(lia)).
          pose proof (pow2_pos (fexp g - E) ltac:(lia)).
          pose proof (pow2_pos (e1 - E) ltac:(lia)).
          assert (D3 : 2 ^ (g + 1 - E) = 2 * 2 ^ (g - E)).
          { replace (g + 1 - E) with (Z.succ (g - E)) by lia.
            apply Z.pow_succ_r. lia. }
          nia. }
        pose proof (digits2_le p _ H). lia. }
      pose proof (fexp_mono _ _ Hd2) as F2.
      assert (fexp 1024 = 971) by reflexivity.
      split; [lia|].
      replace (e3 - E) with (n2 + (e1 - E)) by lia.
      rewrite pow2_split by lia.
      pose proof (pow2_pos (e1 - E) ltac:(lia)). nia. }
  destruct L as [[L1 L2] L3].
  destruct (shr_m mrs3) as [|m3|m3] eqn:Em3; [now left | right | lia].
  exists m3, e3.
  replace (e3 <=? NumPy.emax - NumPy.prec) with true
    by (symmetry; apply Z.leb_le; unfold NumPy.emax, NumPy.prec; lia).
  split; [reflexivity|]. split; lia.
Qed.



(** Comparison of two positive finite floats with canonical mantissas. *)
Lemma leb_finite_bound (m mp : positive) (e ep : Z) :
  NumPy.valid (S754_finite false m e) = true ->
  NumPy.fleb (S754_finite false m e) (S754_finite false mp ep) = true ->
  2 ^ 52 <= Zpos mp ->
  -1074 <= e <= ep /\ Zpos m <= Zpos mp * 2 ^ (ep - e).
Proof.
  unfold NumPy.valid, valid_binary, bounded, canonical_mantissa,
    SpecFloat.fexp, emin, NumPy.prec, NumPy.emax.
  intros V L Hp. apply andb_true_iff in V. destruct V as [V _].
  apply Z.eqb_eq in V.
  destruct (digits2_pos_bounds m) as [_ Hm].
  assert (Hd : Zpos (digits2_pos m) <= 53) by lia.
  pose proof (pow2_mono (Zpos (digits2_pos m)) 53 ltac:(lia)) as P53.
  assert (Hm53 : Zpos m < 2 * 2 ^ 52).
  { change (2 * 2 ^ 52) with (2 ^ 53). lia. }
  clear P53 Hm.
  assert (He : -1074 <= e) by lia. clear V Hd.
  unfold NumPy.fleb, SFleb, SFcompare in L.
  destruct (Z.compare_spec e ep) as [E|E|E]; [| |discriminate].
  - subst ep. split; [lia|]. rewrite Z.sub_diag, Z.pow_0_r.
    pose proof (Pos.compare_spec m mp) as C. unfold Pos.compare in C.
    destruct C as [C|C|C]; [subst; lia | lia | discriminate L].
  - split; [lia|].
    pose proof (pow2_mono 1 (ep - e) ltac:(lia)) as P1.
    change (2 ^ 1) with 2 in P1.
    generalize dependent (2 ^ 52). generalize dependent (2 ^ (ep - e)).
    intros. nia.
Qed.

Lemma le_pi_mantissa (m : positive) (e : Z) :
  NumPy.valid (S754_finite false m e) = true ->
  NumPy.fleb (S754_finite false m e) NumPy.NPY_PI = true ->
  -1074 <= e <= -51 /\ Zpos m <= 7074237752028440 * 2 ^ (-51 - e).
Proof.
  intros V L. apply (leb_finite_bound m _ e (-51) V L).
  vm_compute. discriminate.
Qed.

(** For every binary64 [beta] in [0, NPY_PI], [np.int32(np.rad2deg(beta))]
    is the truncation of a finite value, and lies between 0 and 180. *)
Lemma rad2deg_trunc_range (beta : NumPy.float64) :
  NumPy.valid beta = true ->
  NumPy.fleb (S754_zero false) beta = true ->
  NumPy.fleb beta NumPy.NPY_PI = true ->
  exists t, NumPy.trunc (NumPy.rad2deg beta) = Some t /\ 0 <= t <= 180.
Proof.
  intros V L0 Lpi.
  unfold NumPy.rad2deg, NumPy.fmul. rewrite rad2deg_factor_value.
  destruct beta as [s|s| |s m e].
  - exists 0. split; [reflexivity | lia].
  - destruct s; [discriminate L0 | discriminate Lpi].
  - discriminate L0.
  - destruct s; [discriminate L0|].
    destruct (le_pi_mantissa m e V Lpi) as [He Hm].
    cbn [SFmul xorb].
    remember 8063664102031864%positive as mc eqn:Emc.
    remember 7074237752028440 as mpi eqn:Empi.
    assert (N1 : mpi * Zpos mc < 2 ^ 106) by (subst; vm_compute; reflexivity).
    assert (N2 : mpi * Zpos mc + 2 ^ 53 < 181 * 2 ^ 98) by (subst; vm_compute; reflexivity).
    clear Emc Empi V L0 Lpi.
    set (E := e + -47).
    pose proof (pow2_pos (-51 - e) ltac:(lia)) as PT.
    assert (P106 : 2 ^ (8 - E) = 2 ^ 106 * 2 ^ (-51 - e)).
    { rewrite <- pow2_split by lia. f_equal. lia. }
    assert (P98 : 2 ^ (- E) = 2 ^ 98 * 2 ^ (-51 - e)).
    { rewrite <- pow2_split by lia. f_equal. lia. }
    assert (F8 : SpecFloat.fexp NumPy.prec NumPy.emax 8 = -45) by reflexivity.
    assert (P53 : 2 ^ (SpecFloat.fexp NumPy.prec NumPy.emax 8 - E)
                  = 2 ^ 53 * 2 ^ (-51 - e)).
    { rewrite <- pow2_split by lia. f_equal. lia. }
    assert (HM : Zpos (m * mc) <= mpi * Zpos mc * 2 ^ (-51 - e)).
    { rewrite Pos2Z.inj_mul. nia. }
    destruct (binary_round_aux_bound false (m * mc) E 8) as [Z0 | [m3 [e3 [R [He3 B]]]]].
    + lia.
    + lia.
    + rewrite P106. generalize dependent (2 ^ 106). intros. nia.
    + rewrite Z0. exists 0. split; [reflexivity | lia].
    + rewrite R. cbn [NumPy.trunc]. eexists. split; [reflexivity|].
      rewrite P53 in B.
      assert (U : Zpos m3 * 2 ^ (e3 - E) < 181 * 2 ^ (- E)).
      { rewrite P98. clear - B HM N2 PT.
        generalize dependent (2 ^ 98). generalize dependent (2 ^ 53).
        generalize dependent (2 ^ (e3 - E)). generalize dependent (2 ^ (-51 - e)).
        generalize dependent (Zpos (m * mc)). generalize dependent (mpi * Zpos mc).
        intros. nia. }
      clear - U He3 He.
      destruct (Z.le_gt_cases 0 e3) as [Hp|Hn].
      * rewrite Z.shiftl_mul_pow2 by assumption.
        pose proof (pow2_pos e3 Hp). pose proof (pow2_pos (- E) ltac:(subst E; lia)).
        replace (e3 - E) with (e3 + - E) in U by lia.
        rewrite pow2_split in U by (subst E; lia). nia.
      * rewrite Z.shiftl_div_pow2 by lia.
        pose proof (pow2_pos (- e3) ltac:(lia)) as P3.
        pose proof (pow2_pos (e3 - E) ltac:(lia)).
        replace (- E) with ((e3 - E) + - e3) in U by lia.
        rewrite pow2_split in U by lia.
        split; [apply Z.div_pos; lia|].
        assert (Zpos m3 / 2 ^ (- e3) < 181); [|lia].
        apply Z.div_lt_upper_bound; [assumption | nia].
Qed.

Lemma rad2deg_int32_range (beta : NumPy.float64) :
  NumPy.valid beta = true ->
  NumPy.fleb (S754_zero false) beta = true ->
  NumPy.fleb beta NumPy.NPY_PI = true ->
  NumPy.convertible (NumPy.rad2deg beta) = true /\
  0 <= NumPy.int32 (NumPy.rad2deg beta) <= 180.
Proof.
  intros V L0 Lpi.
  destruct (rad2deg_trunc_range beta V L0 Lpi) as [t [Et Ht]].
  unfold NumPy.convertible, NumPy.int32. rewrite Et.
  assert (I : NumPy.is_int32 t = true).
  { unfold NumPy.is_int32, NumPy.INT32_MIN, NumPy.INT32_MAX.
    apply andb_true_iff. split; apply Z.leb_le; lia. }
  rewrite I. split; [reflexivity | assumption].
Qed.

End Rounding.

(** C10: when the second Euler angle of the pose lies in [0, pi] -- as a
    binary64, between 0 and [NPY_PI], the binary64 nearest to pi -- the wire
    angle [r = 180 - np.int32(np.rad2deg(euler[1]))] lies in [0, 180]; hence
    the high byte of the orientation payload is 0 and the subtraction never
    leaves the integer width. *)
Theorem wire_angle_range `{External} (w : Z) (pose : Pose) :
  let beta := snd (fst (euler_of pose)) in
  let r := wire_angle w (euler_of pose) in
  9 <= w ->
  NumPy.valid beta = true ->
  NumPy.fleb (S754_zero false) beta = true ->
  NumPy.fleb beta NumPy.NPY_PI = true ->
  0 <= r <= 180
  /\ r = 180 - NumPy.int32 (NumPy.rad2deg beta)
  /\ Z.land (Z.shiftr r 8) 255 = 0
  /\ nth 1 (orientation_frame r) 1 = 0.
Proof.
  intros beta r Hw V L0 Lpi.
  destruct (rad2deg_int32_range beta V L0 Lpi) as [_ Ht].
  assert (Er : r = 180 - NumPy.int32 (NumPy.rad2deg beta)).
  { subst r beta. unfold wire_angle.
    destruct (euler_of pose) as [[alpha b] gamma]. cbn [fst snd] in *.
    unfold NumPy.sub. apply wrap_small; [lia|].
    pose proof (pow2_mono 8 (w - 1) ltac:(lia)) as P.
    change (2 ^ 8) with 256 in P. lia. }
  assert (Hr : 0 <= r <= 180) by lia.
  assert (Hb : Z.land (Z.shiftr r 8) 255 = 0).
  { rewrite byte1_mod. rewrite Z.mod_small by (change (2 ^ 16) with 65536; lia).
    apply Z.div_small. change (2 ^ 8) with 256. lia. }
  split; [exact Hr|]. split; [exact Er|]. split; [exact Hb|].
  rewrite orientation_frame_bytes. cbn [nth]. exact Hb.
Qed.

Lemma wire_angle_range_witness :
  let pose := make_pose (H := sample_external) (sample_marker 7) in
  let beta := snd (fst (euler_of (H := sample_external) pose)) in
  9 <= 32 /\ NumPy.valid beta = true /\
  NumPy.fleb (S754_zero false) beta = true /\
  NumPy.fleb beta NumPy.NPY_PI = true /\
  0 <= wire_angle 32 (euler_of (H := sample_external) pose) <= 180.
Proof.
  cbv zeta. split; [lia|]. split; [reflexivity|]. split; [reflexivity|].
  split; [reflexivity|].
  exact (proj1 (wire_angle_range (H := sample_external) 32
                  (make_pose (H := sample_external) (sample_marker 7))
                  ltac:(lia) eq_refl eq_refl eq_refl)).
Defined.

(** The two ends of the range. *)
Example wire_angle_at_zero :
  wire_angle 32 (f64 0 0, f64 0 0, f64 0 0) = 180.
Proof. vm_compute. reflexivity. Qed.

Example wire_angle_at_pi :
  NumPy.rad2deg NumPy.NPY_PI = NumPy.of_int 180 /\
  wire_angle 32 (f64 0 0, NumPy.NPY_PI, f64 0 0) = 0.
Proof. vm_compute. split; reflexivity. Qed.

(** * Further properties of the node *)

(** ** Reading the payloads back *)

Lemma position_frame_bytes (w qx qz : Z) :
  32 <= w ->
  position_frame w qx qz =
    [2; Z.land (Z.shiftr qx 8) 255; Z.land (qx + 128) 255;
     Z.land (Z.shiftr (qz + 128) 8) 255; Z.land qz 255].
Proof.
  intros Hw.
  unfold position_frame, data_array1, tolist_uint8, np_append,
    NumPy.right_shift, NumPy.add.
  cbn [app map]. rewrite !uint8_of_byte.
  rewrite byte0_wrap, byte1_wrap by lia.
  rewrite (uint8_roundtrip 2) by lia. reflexivity.
Qed.

Lemma wrap_mod (w n : Z) : 0 < w -> NumPy.wrap w (n mod 2 ^ w) = NumPy.wrap w n.
Proof.
  intros Hw. unfold NumPy.wrap. f_equal.
  rewrite Zplus_mod_idemp_l. reflexivity.
Qed.

Lemma read_x_bytes (qx : Z) :
  256 * Z.land (Z.shiftr qx 8) 255 + (Z.land (qx + 128) 255 - 128) mod 256
  = qx mod 2 ^ 16.
Proof.
  rewrite byte1_mod, byte0_mod.
  change (2 ^ 16) with 65536. change (2 ^ 8) with 256.
  Z.to_euclidean_division_equations. lia.
Qed.

Lemma read_z_bytes (qz : Z) :
  256 * ((Z.land (Z.shiftr (qz + 128) 8) 255
          - (if 128 <=? Z.land qz 255 then 1 else 0)) mod 256)
  + Z.land qz 255
  = qz mod 2 ^ 16.
Proof.
  rewrite byte1_mod, byte0_mod.
  change (2 ^ 16) with 65536. change (2 ^ 8) with 256.
  destruct (Z.leb_spec 128 (qz mod 256));
    Z.to_euclidean_division_equations; lia.
Qed.

(** The position payload determines both coordinates up to 16 bits: the
    receiver's reading is the value reduced to a signed 16-bit integer, and
    is the value itself between -32768 and 32767 centimetres. *)
Theorem position_frame_read (w qx qz : Z) :
  32 <= w ->
  read_x (position_frame w qx qz) = NumPy.wrap 16 qx /\
  read_z (position_frame w qx qz) = NumPy.wrap 16 qz /\
  (- 32768 <= qx < 32768 -> read_x (position_frame w qx qz) = qx) /\
  (- 32768 <= qz < 32768 -> read_z (position_frame w qx qz) = qz).
Proof.
  intros Hw. rewrite (position_frame_bytes w qx qz Hw).
  unfold read_x, read_z. cbn [nth].
  rewrite read_x_bytes, read_z_bytes, !wrap_mod by lia.
  repeat split; try reflexivity; intros; apply wrap_small; cbn; lia.
Qed.

Lemma position_frame_read_witness :
  32 <= 32 /\
  read_x (position_frame 32 (-30) 250) = -30 /\
  read_z (position_frame 32 (-30) 250) = 250.
Proof.
  split; [lia|].
  pose proof (position_frame_read 32 (-30) 250 ltac:(lia)) as [_ [_ [X Z]]].
  split; [apply X | apply Z]; lia.
Defined.

(** Two position payloads coincide exactly when the coordinates agree
    modulo 2^16: values 65536 cm apart are sent as the same bytes. *)
Theorem position_frame_collision (w qx qz qx' qz' : Z) :
  32 <= w ->
  (position_frame w qx qz = position_frame w qx' qz' <->
   qx mod 2 ^ 16 = qx' mod 2 ^ 16 /\ qz mod 2 ^ 16 = qz' mod 2 ^ 16).
Proof.
  intros Hw. split.
  - intros E.
    pose proof (f_equal (fun l => 256 * nth 1 l 0 + (nth 2 l 0 - 128) mod 256) E) as Ex.
    pose proof (f_equal (fun l => 256 * ((nth 3 l 0 - (if 128 <=? nth 4 l 0 then 1 else 0)) mod 256)
                                  + nth 4 l 0) E) as Ez.
    rewrite !(position_frame_bytes w) in Ex, Ez by assumption.
    cbn [nth] in Ex, Ez. rewrite !read_x_bytes in Ex. rewrite !read_z_bytes in Ez.
    now split.
  - intros [Ex Ez]. rewrite !(position_frame_bytes w) by assumption.
    assert (Ex1 : (qx + 128) mod 2 ^ 16 = (qx' + 128) mod 2 ^ 16).
    { rewrite (Zplus_mod qx), (Zplus_mod qx'), Ex. reflexivity. }
    assert (Ez1 : (qz + 128) mod 2 ^ 16 = (qz' + 128) mod 2 ^ 16).
    { rewrite (Zplus_mod qz), (Zplus_mod qz'), Ez. reflexivity. }
    assert (L : forall a b, a mod 2 ^ 16 = b mod 2 ^ 16 -> Z.land a 255 = Z.land b 255).
    { intros a b Hab. rewrite !byte0_mod.
      rewrite <- (Z.mod_mod_divide a (2 ^ 16) (2 ^ 8)), <- (Z.mod_mod_divide b (2 ^ 16) (2 ^ 8));
        try (exists (2 ^ 8); reflexivity).
      now rewrite Hab. }
    rewrite !byte1_mod, Ex, Ez1, (L _ _ Ex1), (L _ _ Ez). reflexivity.
Qed.

Lemma position_frame_collision_witness :
  32 <= 32 /\ position_frame 32 100 200 = position_frame 32 (100 + 65536) (200 - 65536).
Proof.
  split; [lia|].
  apply (proj2 (position_frame_collision 32 100 200 (100 + 65536) (200 - 65536) ltac:(lia))).
  split; reflexivity.
Defined.

(** The orientation payload holds the angle modulo 2^16, high byte first. *)
Theorem orientation_frame_read (r : Z) :
  read_angle (orientation_frame r) = r mod 2 ^ 16.
Proof.
  rewrite orientation_frame_bytes. unfold read_angle. cbn [nth].
  rewrite byte1_mod, byte0_mod.
  change (2 ^ 16) with 65536. change (2 ^ 8) with 256.
  Z.to_euclidean_division_equations. lia.
Qed.

(** ** One calibrated cycle *)

Section CycleFacts.
Context `{External}.
Variable w : Z.

Lemma encode_fold_events (hdr : Header) (ps : list Pose) :
  forall data out,
    exists data',
      fold_left (encode_step w) ps (frame_msg hdr data, out) =
        (frame_msg hdr data', out ++ flat_map (pose_events w hdr) ps).
Proof.
  induction ps as [|p ps IH]; intros data out.
  - exists data. cbn. now rewrite app_nil_r.
  - cbn [fold_left]. unfold encode_step at 2.
    change (with_data (with_data (frame_msg hdr data) ?a) ?b) with (frame_msg hdr b).
    change (with_data (frame_msg hdr data) ?a) with (frame_msg hdr a).
    match goal with
    | |- context [fold_left _ ps (frame_msg hdr ?dd, out ++ ?ev)] =>
        destruct (IH dd (out ++ ev)) as [data' E]; exists data'
    end.
    rewrite E, <- app_assoc. reflexivity.
Qed.

(** The whole trace of a cycle once camera info is stored. *)
Lemma image_callback_calibrated (self : ArucoNode) (info : CameraInfo) (img : ImageMsg) :
  info_msg self = Some info ->
  image_callback w self img =
    (self,
     Detect :: (if imshow_isshow self then [Imshow] else []) ++
     match cycle_accepted self img with
     | [] => []
     | acc =>
         flat_map (pose_events w (img_header img)) (map make_pose acc) ++
         [PosesPublish {| pa_header := cycle_header self info img;
                          poses := map make_pose acc |};
          MarkersPublish {| m_header := cycle_header self info img;
                            marker_ids := map det_id acc;
                            m_poses := map make_pose acc |}]
     end).
Proof.
  intros Hinfo. unfold image_callback, cycle_accepted. rewrite Hinfo.
  destruct (detectMarkers img _ _ _) as [ms|]; [|now rewrite app_nil_r].
  rewrite collect_filter. cbn [marker_ids poses]. rewrite length_map.
  destruct (accepted_markers (id_whitelist self) ms) as [|a acc] eqn:Eacc.
  - cbn. now rewrite app_nil_r.
  - cbn [List.length Nat.ltb Nat.leb].
    change {| can_header := img_header img; can_id := 65; can_frame := CAN_DATA;
              can_format := STANDARD_FORMAT; can_data := [] |}
      with (frame_msg (img_header img) []).
    destruct (encode_fold_events (img_header img) (map make_pose (a :: acc)) [] [])
      as [data' E].
    rewrite E. reflexivity.
Qed.

Lemma image_callback_state (self : ArucoNode) (img : ImageMsg) :
  fst (image_callback w self img) = self.
Proof.
  destruct (info_msg self) as [info|] eqn:Hinfo.
  - now rewrite (image_callback_calibrated self info img Hinfo).
  - unfold image_callback. now rewrite Hinfo.
Qed.

Lemma wire_frames_app (a b : list Event) :
  wire_frames (a ++ b) = wire_frames a ++ wire_frames b.
Proof. apply flat_map_app. Qed.

Lemma wire_frames_pose_events (hdr : Header) (ps : list Pose) :
  wire_frames (flat_map (pose_events w hdr) ps) =
    flat_map (fun p => [position_msg w hdr p; orientation_msg w hdr p]) ps.
Proof.
  induction ps as [|p ps IH]; [reflexivity|].
  cbn [flat_map]. rewrite wire_frames_app, IH. reflexivity.
Qed.

Lemma wire_frames_cycle (self : ArucoNode) (img : ImageMsg) :
  wire_frames (snd (image_callback w self img)) =
    match info_msg self with
    | None => []
    | Some _ =>
        flat_map (fun p => [position_msg w (img_header img) p;
                            orientation_msg w (img_header img) p])
                 (map make_pose (cycle_accepted self img))
    end.
Proof.
  destruct (info_msg self) as [info|] eqn:Hinfo.
  - rewrite (image_callback_calibrated self info img Hinfo). cbn [snd].
    change (wire_frames (Detect :: ?l)) with (wire_frames l).
    rewrite wire_frames_app.
    replace (wire_frames (if imshow_isshow self then [Imshow] else [])) with
      (@nil CommunicationFrame) by (now destruct (imshow_isshow self)).
    destruct (cycle_accepted self img) as [|a acc]; [reflexivity|].
    rewrite wire_frames_app, wire_frames_pose_events. cbn [app].
    change (wire_frames [PosesPublish _; MarkersPublish _]) with (@nil CommunicationFrame).
    now rewrite app_nil_r.
  - unfold image_callback. rewrite Hinfo. reflexivity.
Qed.

(** Whatever the node and the image, a cycle sends two CAN messages per
    accepted marker when camera info is stored and none otherwise. *)
Lemma wire_frame_count (self : ArucoNode) (img : ImageMsg) :
  List.length (wire_frames (snd (image_callback w self img))) =
    match info_msg self with
    | None => 0%nat
    | Some _ => (2 * List.length (cycle_accepted self img))%nat
    end.
Proof.
  rewrite wire_frames_cycle. destruct (info_msg self); [|reflexivity].
  now rewrite length_pairs, length_map.
Qed.

Lemma wire_frame_count_calibrated (self : ArucoNode) (info : CameraInfo) (img : ImageMsg) :
  info_msg self = Some info ->
  List.length (wire_frames (snd (image_callback w self img))) =
    (2 * List.length (cycle_accepted self img))%nat.
Proof.
  intros Hinfo. rewrite wire_frames_cycle, Hinfo.
  now rewrite length_pairs, length_map.
Qed.

Lemma astype_uint8_range (f : NumPy.float64) : 0 <= NumPy.astype_uint8 f < 256.
Proof.
  unfold NumPy.astype_uint8. destruct (NumPy.trunc f); [|lia].
  apply Z.mod_pos_bound. lia.
Qed.

Lemma tolist_uint8_range (a : list NumPy.float64) :
  Forall (fun b => 0 <= b < 256) (tolist_uint8 a).
Proof.
  unfold tolist_uint8. induction a as [|f a IH]; cbn [map]; constructor;
    [apply astype_uint8_range | exact IH].
Qed.

(** Every CAN message of every cycle is a standard data frame with id 0x41
    and the header of the image, and carries exactly five bytes, the first
    being the tag 2 or 3. *)
Theorem wire_frame_shape (self : ArucoNode) (img : ImageMsg) (f : CommunicationFrame) :
  In f (wire_frames (snd (image_callback w self img))) ->
  can_id f = 65 /\ can_frame f = CAN_DATA /\ can_format f = STANDARD_FORMAT /\
  can_header f = img_header img /\
  List.length (can_data f) = 5%nat /\
  Forall (fun b => 0 <= b < 256) (can_data f) /\
  (nth 0 (can_data f) 0 = 2 \/ nth 0 (can_data f) 0 = 3).
Proof.
  rewrite wire_frames_cycle. destruct (info_msg self); [|intros []].
  intros Hf. apply in_flat_map in Hf. destruct Hf as [p [_ [<- | [<- | []]]]];
    unfold position_msg, orientation_msg, frame_msg;
    cbn [can_id can_frame can_format can_header can_data];
    (do 5 (split; [reflexivity|])); (split; [apply tolist_uint8_range|]);
    [left | right]; reflexivity.
Qed.

(** In a cycle with camera info stored the detector is consulted once, and
    the preview is shown once when [imshow_isshow] is set and never
    otherwise, whether or not anything was detected. *)
Theorem detector_and_preview_once (self : ArucoNode) (info : CameraInfo) (img : ImageMsg) :
  info_msg self = Some info ->
  count_occ_detect (snd (image_callback w self img)) = 1%nat /\
  count_occ_imshow (snd (image_callback w self img)) =
    (if imshow_isshow self then 1 else 0)%nat.
Proof.
  intros Hinfo. rewrite (image_callback_calibrated self info img Hinfo). cbn [snd].
  assert (P : forall hdr ps, count_occ_detect (flat_map (pose_events w hdr) ps) = 0%nat /\
                             count_occ_imshow (flat_map (pose_events w hdr) ps) = 0%nat).
  { intros hdr ps. induction ps as [|p ps [IH1 IH2]]; [now split|].
    cbn [flat_map]. unfold count_occ_detect, count_occ_imshow in *.
    rewrite !filter_app, !length_app, IH1, IH2. now split. }
  unfold count_occ_detect, count_occ_imshow in *.
  destruct (cycle_accepted self img) as [|a acc]; destruct (imshow_isshow self);
    cbn [filter app is_detect is_imshow List.length];
    rewrite ?filter_app, ?length_app;
    try rewrite (proj1 (P _ _)); try rewrite (proj2 (P _ _)); split; reflexivity.
Qed.

End CycleFacts.

Section CycleFacts2.
Context `{External}.
Variable w : Z.

(** The CAN messages of a cycle carry neither the marker id nor the height
    y nor the first and third Euler angles: two images with the same header
    whose accepted markers agree, one by one, in x, z and the second Euler
    angle produce the same CAN messages. *)
Theorem wire_frames_anonymous (self : ArucoNode) (info : CameraInfo) (img1 img2 : ImageMsg) :
  info_msg self = Some info ->
  img_header img1 = img_header img2 ->
  Forall2 (fun a b => same_wire_pose (make_pose a) (make_pose b))
          (cycle_accepted self img1) (cycle_accepted self img2) ->
  wire_frames (snd (image_callback w self img1)) =
  wire_frames (snd (image_callback w self img2)).
Proof.
  intros Hinfo Hh F. rewrite !wire_frames_cycle, Hinfo, Hh.
  induction F as [|a b l1 l2 [Ex [Ez Eb]] F IH]; [reflexivity|].
  cbn [map flat_map]. rewrite IH.
  assert (P : position_msg w (img_header img2) (make_pose a) =
              position_msg w (img_header img2) (make_pose b)).
  { unfold position_msg. now rewrite Ex, Ez. }
  assert (O : orientation_msg w (img_header img2) (make_pose a) =
              orientation_msg w (img_header img2) (make_pose b)).
  { unfold orientation_msg, wire_angle.
    destruct (euler_of (make_pose a)) as [[a1 a2] a3].
    destruct (euler_of (make_pose b)) as [[b1 b2] b3].
    cbn [fst snd] in Eb. now subst. }
  now rewrite P, O.
Qed.

(** [info_callback] followed by an image: the image is processed -- the
    detector is consulted, with the intrinsics and distortion of the stored
    message -- and no warning is logged. *)
Theorem info_then_image (self : ArucoNode) (msg : CameraInfo) (img : ImageMsg) :
  let self' := fst (info_callback self msg) in
  In Detect (snd (image_callback w self' img)) /\
  ~ In (Log WARN NoCameraInfo) (snd (image_callback w self' img)) /\
  cycle_accepted self' img =
    match detectMarkers img (marker_size self) (Some (k msg)) (Some (d msg)) with
    | None => []
    | Some ms => accepted_markers (id_whitelist self) ms
    end.
Proof.
  intros self'.
  rewrite (image_callback_calibrated w self' msg img eq_refl). cbn [snd].
  split; [now left|]. split; [|reflexivity].
  intros [E | Hin]; [discriminate|].
  apply in_app_or in Hin. destruct Hin as [Hin | Hin].
  - destruct (imshow_isshow self'); [destruct Hin as [E | []]; discriminate | destruct Hin].
  - destruct (cycle_accepted self' img) as [|a acc]; [destruct Hin|].
    apply in_app_or in Hin. destruct Hin as [Hin | Hin].
    + apply in_flat_map in Hin. destruct Hin as [p [_ Hp]].
      unfold pose_events in Hp. cbn [In] in Hp.
      repeat (destruct Hp as [Hp | Hp]; [discriminate|]). destruct Hp.
    + cbn [In] in Hin. repeat (destruct Hin as [Hin | Hin]; [discriminate|]). destruct Hin.
Qed.

End CycleFacts2.

(** ** Construction *)

Section InitFacts.
Context `{External}.

(** A dictionary id that names an integer attribute of [cv2.aruco] gives a
    node that carries the parameters, has no camera info yet and a live
    camera-info subscription; four info lines are logged and no error. *)
Lemma init_valid_dictionary_constructs (p : Parameters) (n t dictionary : Z) :
  getattribute (p_aruco_dictionary_id p) = Some (PyInt n) ->
  getattribute "DICT_5X5_100" = Some (PyInt t) ->
  getPredefinedDictionary (PyInt n) = Returned dictionary ->
  init p =
    ([Log INFO (MarkerSize (p_marker_size p));
      Log INFO (MarkerType (p_aruco_dictionary_id p));
      Log INFO (ImageTopic (p_image_topic p));
      Log INFO (ImageInfoTopic (p_camera_info_topic p));
      CreateSubscription (p_camera_info_topic p);
      CreateSubscription (p_image_topic p);
      CreatePublisher "aruco_poses"; CreatePublisher "aruco_markers";
      CreatePublisher "can_frame"],
     Returned {| marker_size := p_marker_size p;
                 camera_frame := p_camera_frame p;
                 imshow_isshow := p_imshow_isshow p;
                 id_whitelist := p_id_whitelist p;
                 info_sub := true;
                 info_msg := None;
                 intrinsic_mat := None;
                 distortion := None;
                 detector := dictionary |}).
Proof.
  intros Hn Ht Hd. unfold init, lookup_dictionary_id. rewrite Hn, Ht.
  cbn [same_type negb]. rewrite Hd. reflexivity.
Qed.

Lemma init_trace (p : Parameters) :
  fst (init p) =
    [Log INFO (MarkerSize (p_marker_size p));
     Log INFO (MarkerType (p_aruco_dictionary_id p));
     Log INFO (ImageTopic (p_image_topic p));
     Log INFO (ImageInfoTopic (p_camera_info_topic p))] ++
    (if snd (lookup_dictionary_id (p_aruco_dictionary_id p))
     then [Log ERROR (BadDictionaryId (p_aruco_dictionary_id p));
           Log ERROR (ValidOptions dict_options)]
     else []) ++
    [CreateSubscription (p_camera_info_topic p);
     CreateSubscription (p_image_topic p);
     CreatePublisher "aruco_poses"; CreatePublisher "aruco_markers";
     CreatePublisher "can_frame"].
Proof.
  unfold init. destruct (lookup_dictionary_id _) as [[v|] failed]; cbn [snd].
  - destruct (getPredefinedDictionary v); reflexivity.
  - reflexivity.
Qed.

(** Provided [cv2.aruco.DICT_5X5_100] is an integer, the constructor logs
    the bad-id error exactly when the configured id is not the name of an
    integer attribute, and then it logs the list of options as well. *)
Theorem init_error_iff_invalid (p : Parameters) (t : Z) :
  getattribute "DICT_5X5_100" = Some (PyInt t) ->
  (In (Log ERROR (BadDictionaryId (p_aruco_dictionary_id p))) (fst (init p)) <->
   ~ exists n, getattribute (p_aruco_dictionary_id p) = Some (PyInt n)) /\
  (In (Log ERROR (BadDictionaryId (p_aruco_dictionary_id p))) (fst (init p)) <->
   In (Log ERROR (ValidOptions dict_options)) (fst (init p))).
Proof.
  intros Ht. rewrite init_trace. unfold lookup_dictionary_id. rewrite Ht.
  destruct (getattribute (p_aruco_dictionary_id p)) as [[n|]|]; cbn [snd same_type negb app In].
  - split; split.
    + intros Hin. repeat (destruct Hin as [Hin | Hin]; [discriminate|]). destruct Hin.
    + intros Hn. exfalso. apply Hn. now exists n.
    + intros Hin. repeat (destruct Hin as [Hin | Hin]; [discriminate|]). destruct Hin.
    + intros Hin. repeat (destruct Hin as [Hin | Hin]; [discriminate|]). destruct Hin.
  - split; split.
    + intros _ [n Hn]. discriminate.
    + intros _. do 4 right. now left.
    + intros _. do 5 right. now left.
    + intros _. do 4 right. now left.
  - split; split.
    + intros _ [n Hn]. discriminate.
    + intros _. do 4 right. now left.
    + intros _. do 5 right. now left.
    + intros _. do 4 right. now left.
Qed.

Lemma lookup_bound (name : string) (v : PyValue) (failed : bool) :
  lookup_dictionary_id name = (Some v, failed) -> getattribute name = Some v.
Proof.
  unfold lookup_dictionary_id. destruct (getattribute name) as [v'|]; [|discriminate].
  destruct (getattribute "DICT_5X5_100"); intros E; injection E as -> _; reflexivity.
Qed.

(** The constructor returns a node only when the configured id names an
    attribute of [cv2.aruco] that [getPredefinedDictionary] accepts; the
    node then has no camera info, a live camera-info subscription, and the
    configured white-list, frame, marker size and preview flag. *)
Theorem init_returns_only_with_dictionary (p : Parameters) (node : ArucoNode) :
  snd (init p) = Returned node ->
  (exists v, getattribute (p_aruco_dictionary_id p) = Some v /\
             getPredefinedDictionary v = Returned (detector node)) /\
  info_msg node = None /\ intrinsic_mat node = None /\ distortion node = None /\
  info_sub node = true /\
  id_whitelist node = p_id_whitelist p /\ camera_frame node = p_camera_frame p /\
  marker_size node = p_marker_size p /\ imshow_isshow node = p_imshow_isshow p.
Proof.
  unfold init.
  destruct (lookup_dictionary_id (p_aruco_dictionary_id p)) as [[v|] failed] eqn:L;
    [|discriminate].
  apply lookup_bound in L.
  destruct (getPredefinedDictionary v) as [dct|e] eqn:Eg; [|discriminate].
  cbn [snd]. intros E. injection E as <-. cbn.
  split; [exists v; now split|]. repeat split.
Qed.

End InitFacts.

(** ** Runs of the node *)

Section RunFacts.
Context `{External}.
Variable w : Z.

Lemma spin_cons (self : ArucoNode) (m : Message) (rest : list Message) :
  spin w self (m :: rest) =
    (fst (spin w (fst (dispatch w self m)) rest),
     snd (dispatch w self m) ++ snd (spin w (fst (dispatch w self m)) rest)).
Proof.
  cbn [spin]. destruct (dispatch w self m) as [s1 t1]. cbn [fst snd].
  destruct (spin w s1 rest) as [s2 t2]. reflexivity.
Qed.

Lemma dispatch_frozen (self : ArucoNode) (m : Message) :
  info_sub self = false -> fst (dispatch w self m) = self.
Proof.
  intros Hs. destruct m as [msg|img]; cbn [dispatch].
  - now rewrite Hs.
  - apply image_callback_state.
Qed.

Lemma spin_state_frozen (self : ArucoNode) (inbox : list Message) :
  info_sub self = false -> fst (spin w self inbox) = self.
Proof.
  intros Hs. induction inbox as [|m rest IH]; [reflexivity|].
  rewrite spin_cons. cbn [fst]. now rewrite (dispatch_frozen self m Hs).
Qed.

(** Once the camera-info subscription is gone the node never changes
    again, whatever arrives, and camera-info messages leave no trace: the
    run is the succession of the cycles of its images. *)
Theorem calibrated_node_is_frozen (self : ArucoNode) (inbox : list Message) :
  info_sub self = false ->
  spin w self inbox =
    (self,
     flat_map (fun m => match m with
                        | ImageArrives img => snd (image_callback w self img)
                        | InfoArrives _ => []
                        end) inbox).
Proof.
  intros Hs. induction inbox as [|m rest IH]; [reflexivity|].
  rewrite spin_cons, (dispatch_frozen self m Hs), IH. cbn [fst snd flat_map].
  destruct m as [msg|img]; cbn [dispatch]; [now rewrite Hs | reflexivity].
Qed.

(** The camera info kept by a run is the first one that arrived while the
    subscription was alive; later ones are not stored, and without a live
    subscription or without any camera-info message the stored one stays. *)
Theorem first_calibration_wins (self : ArucoNode) (inbox : list Message) :
  info_msg (fst (spin w self inbox)) =
    if info_sub self then
      match first_info inbox with
      | Some msg => Some msg
      | None => info_msg self
      end
    else info_msg self.
Proof.
  destruct (info_sub self) eqn:Hs; [|now rewrite spin_state_frozen].
  induction inbox as [|m rest IH]; [reflexivity|].
  rewrite spin_cons. cbn [fst]. destruct m as [msg|img].
  - cbn [dispatch]. rewrite Hs. rewrite spin_state_frozen by reflexivity.
    reflexivity.
  - cbn [dispatch]. rewrite image_callback_state. exact IH.
Qed.

(** A run keeps the configuration: white-list, frame override, marker size,
    preview flag and detector are those the node started with. *)
Theorem spin_keeps_configuration (self : ArucoNode) (inbox : list Message) :
  let self' := fst (spin w self inbox) in
  id_whitelist self' = id_whitelist self /\ camera_frame self' = camera_frame self /\
  marker_size self' = marker_size self /\ imshow_isshow self' = imshow_isshow self /\
  detector self' = detector self.
Proof.
  revert self. induction inbox as [|m rest IH]; intros self; [cbn; repeat split|].
  cbv zeta. rewrite spin_cons. cbn [fst].
  specialize (IH (fst (dispatch w self m))). cbv zeta in IH.
  destruct IH as [I1 [I2 [I3 [I4 I5]]]]. rewrite I1, I2, I3, I4, I5.
  destruct m as [msg|img]; cbn [dispatch].
  - destruct (info_sub self); cbn; repeat split.
  - rewrite image_callback_state. repeat split.
Qed.

(** While no camera info has arrived, images only produce warnings: one per
    image, nothing published, the node unchanged. *)
Theorem images_before_calibration (self : ArucoNode) (inbox : list Message) :
  info_msg self = None -> only_images inbox ->
  spin w self inbox = (self, map (fun _ => Log WARN NoCameraInfo) inbox).
Proof.
  intros Hinfo. induction inbox as [|m rest IH]; intros Him; [reflexivity|].
  rewrite spin_cons.
  destruct (Him m (or_introl eq_refl)) as [img ->]. cbn [dispatch].
  unfold image_callback at 1 2 3. rewrite Hinfo. cbn [fst snd].
  rewrite IH; [reflexivity|]. intros m' Hm'. apply Him. now right.
Qed.

(** Over a run of a node that holds camera info and whose camera-info
    subscription is gone, the number of CAN messages is twice the number of
    markers accepted over the images of the run. *)
Theorem run_wire_frame_count (self : ArucoNode) (info : CameraInfo) (inbox : list Message) :
  info_sub self = false -> info_msg self = Some info ->
  List.length (wire_frames (snd (spin w self inbox))) =
    (2 * accepted_in_run self inbox)%nat.
Proof.
  intros Hs Hinfo. induction inbox as [|m rest IH]; [reflexivity|].
  rewrite spin_cons. cbn [snd]. rewrite (dispatch_frozen self m Hs).
  rewrite wire_frames_app, length_app, IH.
  change (accepted_in_run self (m :: rest)) with
    ((match m with
      | ImageArrives img => List.length (cycle_accepted self img)
      | InfoArrives _ => 0
      end + accepted_in_run self rest)%nat).
  destruct m as [msg|img]; cbn [dispatch].
  - rewrite Hs. cbn [snd wire_frames flat_map List.length]. lia.
  - rewrite wire_frame_count_calibrated with (info := info) by assumption. lia.
Qed.

Lemma spin_uncalibrated_publications (self : ArucoNode) (inbox : list Message) :
  info_msg self = None -> only_images inbox ->
  publications (snd (spin w self inbox)) = [].
Proof.
  intros Hinfo. induction inbox as [|m rest IH]; intros Him; [reflexivity|].
  rewrite spin_cons. cbn [snd].
  destruct (Him m (or_introl eq_refl)) as [img ->]. cbn [dispatch].
  rewrite image_callback_state, publications_app, IH
    by (intros m' Hm'; apply Him; now right).
  unfold image_callback. rewrite Hinfo. reflexivity.
Qed.

Lemma publications_init (p : Parameters) : publications (fst (init p)) = [].
Proof.
  rewrite init_trace. rewrite !publications_app.
  destruct (snd (lookup_dictionary_id _)); reflexivity.
Qed.

Lemma node_events_map (t : list Event) : node_events (map NodeEvent t) = t.
Proof.
  induction t as [|e t IH]; [reflexivity|].
  unfold node_events in *. cbn [map flat_map app]. now rewrite IH.
Qed.

Lemma node_events_app (a b : list ProcessEvent) :
  node_events (a ++ b) = node_events a ++ node_events b.
Proof. apply flat_map_app. Qed.

(** With a dictionary id that is not an attribute of [cv2.aruco], [main]
    ends with the [UnboundLocalError] of the constructor: nothing of the
    inbox is processed, nothing is published, and neither [destroy_node] nor
    [rclpy.shutdown] is reached. *)
Theorem main_unknown_dictionary (p : Parameters) (inbox : list Message) :
  getattribute (p_aruco_dictionary_id p) = None ->
  main w p inbox = (RclpyInit :: map NodeEvent (fst (init p)), Raised UnboundLocalError) /\
  publications (node_events (fst (main w p inbox))) = [] /\
  ~ In DestroyNode (fst (main w p inbox)) /\
  ~ In RclpyShutdown (fst (main w p inbox)).
Proof.
  intros Hn.
  assert (E : main w p inbox =
              (RclpyInit :: map NodeEvent (fst (init p)), Raised UnboundLocalError)).
  { unfold main, init. rewrite (lookup_unknown _ Hn). reflexivity. }
  rewrite E. cbn [fst]. split; [reflexivity|]. split.
  - change (node_events (RclpyInit :: ?l)) with (node_events l).
    rewrite node_events_map. apply publications_init.
  - split; intros [D | Hin]; try discriminate;
      apply in_map_iff in Hin; destruct Hin as [e [D _]]; discriminate.
Qed.

(** A process that receives no camera info publishes nothing, however many
    images arrive and whatever the configuration. *)
Theorem main_silent_without_camera_info (p : Parameters) (inbox : list Message) :
  only_images inbox ->
  publications (node_events (fst (main w p inbox))) = [] /\
  wire_frames (node_events (fst (main w p inbox))) = [].
Proof.
  intros Him.
  assert (W : forall t, publications t = [] -> wire_frames t = []).
  { induction t as [|e t IH]; [reflexivity|].
    destruct e; cbn; intros E; try discriminate; now apply IH. }
  assert (P : publications (node_events (fst (main w p inbox))) = []).
  { unfold main. destruct (init p) as [t0 o] eqn:Ei.
    pose proof (publications_init p) as P0. rewrite Ei in P0. cbn [fst] in P0.
    destruct o as [node|e].
    - pose proof (init_no_calibration p t0 node Ei) as Hinfo.
      pose proof (spin_uncalibrated_publications node inbox Hinfo Him) as P1.
      destruct (spin w node inbox) as [s1 t1]. cbn [fst snd] in *.
      change (node_events (RclpyInit :: ?l)) with (node_events l).
      rewrite node_events_app, node_events_map. cbn [node_events flat_map app].
      rewrite app_nil_r, publications_app, P0, P1. reflexivity.
    - cbn [fst]. change (node_events (RclpyInit :: ?l)) with (node_events l).
      now rewrite node_events_map. }
  split; [exact P | exact (W _ P)].
Qed.

End RunFacts.

(** ** Quantisation *)

Section QuantizeFacts.
Local Abbreviation fexp := (SpecFloat.fexp NumPy.prec NumPy.emax).

Lemma binary_round_aux_opp (sx : bool) (M E : Z) (l : location) :
  binary_round_aux NumPy.prec NumPy.emax (negb sx) M E l =
  SFopp (binary_round_aux NumPy.prec NumPy.emax sx M E l).
Proof.
  unfold binary_round_aux.
  destruct (shr_fexp NumPy.prec NumPy.emax M E l) as [mrs1 e1].
  destruct (shr_fexp NumPy.prec NumPy.emax _ e1 loc_Exact) as [mrs2 e2].
  destruct (shr_m mrs2); [reflexivity | | reflexivity].
  destruct (e2 <=? NumPy.emax - NumPy.prec); reflexivity.
Qed.

Lemma fmul_fneg (x : NumPy.float64) (mc : positive) (ec : Z) :
  NumPy.fmul (fneg x) (S754_finite false mc ec) =
  fneg (NumPy.fmul x (S754_finite false mc ec)).
Proof.
  unfold NumPy.fmul, fneg.
  destruct x as [s|s| |s m e]; cbn [SFopp SFmul]; rewrite ?xorb_false_r;
    try reflexivity.
  apply binary_round_aux_opp.
Qed.

Lemma trunc_fneg (f : NumPy.float64) :
  NumPy.trunc (fneg f) = option_map Z.opp (NumPy.trunc f).
Proof.
  destruct f as [s|s| |s m e]; try reflexivity.
  cbn [fneg SFopp NumPy.trunc option_map]. destruct s; cbn [negb]; f_equal; lia.
Qed.

(** The quantiser is odd: mirroring a coordinate mirrors its centimetre
    value, because the conversion truncates toward zero.  This holds when
    the product is finite and within the int32 range, its most negative
    value excepted. *)
Theorem quantize_mirror (v : NumPy.float64) :
  NumPy.convertible (NumPy.fmul v (NumPy.of_int 100)) = true ->
  quantize v <> NumPy.INT32_MIN ->
  quantize (fneg v) = - quantize v.
Proof.
  unfold quantize, NumPy.convertible, NumPy.int32.
  rewrite of_int_100, fmul_fneg, trunc_fneg.
  destruct (NumPy.trunc (NumPy.fmul v _)) as [z|]; [|discriminate].
  cbn [option_map]. intros I. rewrite I. intros Hmin.
  assert (I' : NumPy.is_int32 (- z) = true).
  { unfold NumPy.is_int32, NumPy.INT32_MIN, NumPy.INT32_MAX in *.
    apply andb_true_iff in I. destruct I as [I1 I2]. apply Z.leb_le in I1, I2.
    apply andb_true_iff. split; apply Z.leb_le; lia. }
  now rewrite I'.
Qed.

Lemma quantize_mirror_witness :
  NumPy.convertible (NumPy.fmul (f64 51 (-7)) (NumPy.of_int 100)) = true /\
  quantize (f64 51 (-7)) = 39 /\
  quantize (fneg (f64 51 (-7))) = - 39.
Proof.
  split; [reflexivity|]. split; [reflexivity|].
  exact (quantize_mirror (f64 51 (-7)) eq_refl ltac:(vm_compute; discriminate)).
Defined.

(** Rounding a product of magnitude below [2^g] and truncating it: the
    result is at most [B] in absolute value when the exact product plus one
    unit in the last place stays below [B + 1]. *)
Lemma round_trunc_bound (sx : bool) (M : positive) (E g B : Z) :
  -1074 <= g <= 1023 -> E <= fexp g -> E <= 0 -> 0 <= B ->
  Zpos M < 2 ^ (g - E) ->
  Zpos M + 2 ^ (fexp g - E) < (B + 1) * 2 ^ (- E) ->
  exists t,
    NumPy.trunc (binary_round_aux NumPy.prec NumPy.emax sx (Zpos M) E loc_Exact) = Some t /\
    0 <= (if sx then - t else t) <= B.
Proof.
  intros Hg HE HE0 HB HM HU.
  destruct (binary_round_aux_bound sx M E g Hg HE HM) as [Z0 | [m3 [e3 [R [He3 Bd]]]]].
  - rewrite Z0. exists 0. split; [reflexivity|]. destruct sx; lia.
  - rewrite R. cbn [NumPy.trunc].
    assert (U : Zpos m3 * 2 ^ (e3 - E) < (B + 1) * 2 ^ (- E)) by lia.
    assert (A : 0 <= Z.shiftl (Zpos m3) e3 <= B).
    { clear - U He3 HE0 HB.
      destruct (Z.le_gt_cases 0 e3) as [Hp|Hn].
      - rewrite Z.shiftl_mul_pow2 by assumption.
        pose proof (pow2_pos e3 Hp). pose proof (pow2_pos (- E) ltac:(lia)).
        replace (e3 - E) with (e3 + - E) in U by lia.
        rewrite pow2_split in U by lia. nia.
      - rewrite Z.shiftl_div_pow2 by lia.
        pose proof (pow2_pos (- e3) ltac:(lia)) as P3.
        pose proof (pow2_pos (e3 - E) ltac:(lia)).
        replace (- E) with ((e3 - E) + - e3) in U by lia.
        rewrite pow2_split in U by lia.
        split; [apply Z.div_pos; lia|].
        assert (Zpos m3 / 2 ^ (- e3) < B + 1); [|lia].
        apply Z.div_lt_upper_bound; [assumption | nia]. }
    eexists. split; [reflexivity|]. destruct sx; lia.
Qed.

(** A coordinate of at most 327 m in absolute value quantises to at most
    32700 cm in absolute value. *)
Lemma quantize_near (v : NumPy.float64) :
  NumPy.valid v = true ->
  NumPy.fleb (fabs v) (f64 327 0) = true ->
  - 32700 <= quantize v <= 32700.
Proof.
  intros V L.
  assert (T : exists t, NumPy.trunc (NumPy.fmul v (NumPy.of_int 100)) = Some t /\
                        - 32700 <= t <= 32700).
  { rewrite of_int_100. unfold NumPy.fmul.
    destruct v as [s|s| |s m e]; try discriminate.
    - exists 0. split; [reflexivity | lia].
    - cbn [SFmul]. rewrite xorb_false_r.
      change (NumPy.fleb (fabs (S754_finite s m e)) (f64 327 0))
        with (NumPy.fleb (S754_finite false m e)
                         (S754_finite false 5752644836524032 (-44))) in L.
      destruct (leb_finite_bound m 5752644836524032 e (-44) V L
                  ltac:(vm_compute; discriminate)) as [He Hm].
      remember 7036874417766400%positive as mc eqn:Emc.
      remember (Zpos 5752644836524032) as mp eqn:Emp.
      assert (N1 : mp * Zpos mc < 2 ^ 105) by (subst; vm_compute; reflexivity).
      assert (N2 : mp * Zpos mc + 2 ^ 52 < 32701 * 2 ^ 90) by (subst; vm_compute; reflexivity).
      assert (N0 : 0 < mp) by (subst; reflexivity).
      clear Emc Emp V L.
      set (E := e + -46).
      pose proof (pow2_pos (-44 - e) ltac:(lia)) as PT.
      assert (P105 : 2 ^ (15 - E) = 2 ^ 105 * 2 ^ (-44 - e)).
      { rewrite <- pow2_split by lia. f_equal. lia. }
      assert (P90 : 2 ^ (- E) = 2 ^ 90 * 2 ^ (-44 - e)).
      { rewrite <- pow2_split by lia. f_equal. lia. }
      assert (F15 : fexp 15 = -38) by reflexivity.
      assert (P52 : 2 ^ (fexp 15 - E) = 2 ^ 52 * 2 ^ (-44 - e)).
      { rewrite <- pow2_split by lia. f_equal. lia. }
      assert (HM : Zpos (m * mc) <= mp * Zpos mc * 2 ^ (-44 - e)).
      { rewrite Pos2Z.inj_mul. nia. }
      destruct (round_trunc_bound s (m * mc) E 15 32700) as [t [Et Ht]];
        try lia.
      + rewrite P105. generalize dependent (2 ^ 105). intros. nia.
      + rewrite P52, P90. clear - HM N2 PT.
        generalize dependent (2 ^ 90). generalize dependent (2 ^ 52).
        generalize dependent (2 ^ (-44 - e)).
        generalize dependent (Zpos (m * mc)). generalize dependent (mp * Zpos mc).
        intros. nia.
      + exists t. split; [exact Et|]. destruct s; lia. }
  destruct T as [t [Et Ht]]. unfold quantize, NumPy.int32. rewrite Et.
  assert (I : NumPy.is_int32 t = true).
  { unfold NumPy.is_int32, NumPy.INT32_MIN, NumPy.INT32_MAX.
    apply andb_true_iff. split; apply Z.leb_le; lia. }
  now rewrite I.
Qed.

(** Positions within 327 m of the camera axes are transmitted without
    loss: the quantised x and z are at most 32700 in absolute value, and
    reading the position payload gives them back. *)
Theorem near_positions_lossless (w : Z) (pose : Pose) :
  32 <= w ->
  NumPy.valid (position_x pose) = true -> NumPy.valid (position_z pose) = true ->
  NumPy.fleb (fabs (position_x pose)) (f64 327 0) = true ->
  NumPy.fleb (fabs (position_z pose)) (f64 327 0) = true ->
  let data := position_frame w (quantize (position_x pose)) (quantize (position_z pose)) in
  - 32700 <= quantize (position_x pose) <= 32700 /\
  - 32700 <= quantize (position_z pose) <= 32700 /\
  read_x data = quantize (position_x pose) /\
  read_z data = quantize (position_z pose).
Proof.
  intros Hw Vx Vz Lx Lz data.
  pose proof (quantize_near _ Vx Lx) as Bx.
  pose proof (quantize_near _ Vz Lz) as Bz.
  split; [exact Bx|]. split; [exact Bz|].
  subst data. rewrite (position_frame_bytes w _ _ Hw).
  unfold read_x, read_z. cbn [nth].
  rewrite read_x_bytes, read_z_bytes, !wrap_mod by lia.
  split; apply wrap_small; cbn; lia.
Qed.

Lemma near_positions_lossless_witness :
  let pose := make_pose (H := sample_external) (sample_marker 7) in
  32 <= 32 /\
  read_x (position_frame 32 (quantize (position_x pose)) (quantize (position_z pose))) = 31 /\
  read_z (position_frame 32 (quantize (position_x pose)) (quantize (position_z pose))) = 125.
Proof.
  cbv zeta. split; [lia|].
  exact (proj2 (proj2 (near_positions_lossless 32
           (make_pose (H := sample_external) (sample_marker 7))
           ltac:(lia) eq_refl eq_refl eq_refl eq_refl))).
Defined.

End QuantizeFacts.

(** ** The white-list *)

(** Only membership in the white-list matters: two lists with the same
    elements -- in any order, with any repetitions -- accept the same
    markers. *)
Theorem whitelist_extensional (wl wl' : list Z) (ms : list Detection) :
  (forall i, In i wl <-> In i wl') ->
  accepted_markers wl ms = accepted_markers wl' ms.
Proof.
  intros Hm. unfold accepted_markers. apply filter_ext. intros m.
  destruct wl as [|a wl0]; destruct wl' as [|a' wl0'].
  - reflexivity.
  - exfalso. apply (Hm a'). now left.
  - exfalso. apply (Hm a). now left.
  - rewrite !accepted_nonempty by discriminate.
    apply eq_true_iff_eq. rewrite !existsb_eqb_In. apply Hm.
Qed.

Lemma whitelist_extensional_witness :
  accepted_markers [7; 9; 7] (map sample_marker [9; 3; 7]) =
  accepted_markers [9; 7] (map sample_marker [9; 3; 7]).
Proof.
  apply (whitelist_extensional [7; 9; 7] [9; 7]).
  intros i. cbn [In]. tauto.
Defined.

(** ** The further properties on concrete runs *)

Lemma wire_frame_shape_witness :
  let f := frame_msg (img_header (sample_image [7])) [3; 0; 179; 0; 0] in
  In f (wire_frames (snd (image_callback (H := sample_external) 32
                            (sample_node true []) (sample_image [7])))) /\
  can_id f = 65 /\ List.length (can_data f) = 5%nat.
Proof.
  cbv zeta.
  assert (I : In (frame_msg (img_header (sample_image [7])) [3; 0; 179; 0; 0])
                 (wire_frames (snd (image_callback (H := sample_external) 32
                            (sample_node true []) (sample_image [7]))))).
  { right. left. reflexivity. }
  split; [exact I|].
  pose proof (wire_frame_shape (H := sample_external) 32 (sample_node true [])
                (sample_image [7]) _ I) as [A [_ [_ [_ [B _]]]]].
  split; [exact A | exact B].
Defined.

Lemma detector_and_preview_once_witness :
  count_occ_detect (snd (image_callback (H := sample_external) 32
                           (sample_node true [7; 9]) (sample_image [9; 3; 7]))) = 1%nat.
Proof.
  exact (proj1 (detector_and_preview_once (H := sample_external) 32
                  (sample_node true [7; 9]) sample_info (sample_image [9; 3; 7]) eq_refl)).
Defined.

Lemma wire_frames_anonymous_witness :
  wire_frames (snd (image_callback (H := sample_external) 32
                      (sample_node true []) (sample_image [7]))) =
  wire_frames (snd (image_callback (H := sample_external) 32
                      (sample_node true []) (sample_image [9]))).
Proof.
  apply (wire_frames_anonymous (H := sample_external) 32 (sample_node true [])
           sample_info (sample_image [7]) (sample_image [9]) eq_refl eq_refl).
  repeat constructor.
Defined.

Lemma init_error_iff_invalid_witness :
  In (Log ERROR (BadDictionaryId "Dictionary"))
     (fst (init (H := sample_external) (sample_parameters "Dictionary" []))).
Proof.
  apply (proj1 (init_error_iff_invalid (H := sample_external)
                  (sample_parameters "Dictionary" []) 5 eq_refl)).
  intros [n E]. discriminate.
Defined.

Lemma init_returns_only_with_dictionary_witness :
  info_msg (sample_node false [4]) = None /\ info_sub (sample_node false [4]) = true.
Proof.
  pose proof (init_returns_only_with_dictionary (H := sample_external)
                (sample_parameters "DICT_5X5_250" [4]) (sample_node false [4]) eq_refl)
    as [_ [A [_ [_ [B _]]]]].
  split; [exact A | exact B].
Defined.

Lemma calibrated_node_is_frozen_witness :
  fst (spin (H := sample_external) 32 (sample_node true [7])
         [ImageArrives (sample_image [7]); InfoArrives sample_info;
          ImageArrives (sample_image [9])]) = sample_node true [7].
Proof.
  exact (f_equal fst (calibrated_node_is_frozen (H := sample_external) 32
                        (sample_node true [7]) _ eq_refl)).
Defined.

Lemma images_before_calibration_witness :
  spin (H := sample_external) 32 (sample_node false [])
       [ImageArrives (sample_image [7]); ImageArrives (sample_image [9])] =
    (sample_node false [], [Log WARN NoCameraInfo; Log WARN NoCameraInfo]).
Proof.
  apply (images_before_calibration (H := sample_external) 32 (sample_node false [])
           [ImageArrives (sample_image [7]); ImageArrives (sample_image [9])] eq_refl).
  intros m [<- | [<- | []]]; eexists; reflexivity.
Defined.

Lemma run_wire_frame_count_witness :
  List.length (wire_frames (snd (spin (H := sample_external) 32 (sample_node true [7; 9])
     [ImageArrives (sample_image [9; 3; 7]); InfoArrives sample_info;
      ImageArrives (sample_image [3]); ImageArrives (sample_image [7])]))) = 6%nat.
Proof.
  exact (run_wire_frame_count (H := sample_external) 32 (sample_node true [7; 9])
           sample_info _ eq_refl eq_refl).
Defined.

Lemma main_unknown_dictionary_witness :
  snd (main (H := sample_external) 32 (sample_parameters "DICT_BOGUS" [])
         [InfoArrives sample_info; ImageArrives (sample_image [7])]) =
    Raised UnboundLocalError.
Proof.
  exact (f_equal snd (proj1 (main_unknown_dictionary (H := sample_external) 32
           (sample_parameters "DICT_BOGUS" [])
           [InfoArrives sample_info; ImageArrives (sample_image [7])] eq_refl))).
Defined.

Lemma main_silent_without_camera_info_witness :
  publications (node_events (fst (main (H := sample_external) 32
     (sample_parameters "DICT_5X5_250" [])
     [ImageArrives (sample_image [7]); ImageArrives (sample_image [9; 3])]))) = [].
Proof.
  apply (main_silent_without_camera_info (H := sample_external) 32).
  intros m [<- | [<- | []]]; eexists; reflexivity.
Defined.

(** A whole process: camera info after the first image, then two images. *)
Example main_run :
  map can_data (wire_frames (node_events (fst (main (H := sample_external) 32
     (sample_parameters "DICT_5X5_250" [7])
     [ImageArrives (sample_image [7]); InfoArrives sample_info;
      ImageArrives (sample_image [9]); ImageArrives (sample_image [3; 7])])))) =
    [[2; 0; 159; 0; 125]; [3; 0; 179; 0; 0]].
Proof. vm_compute. reflexivity. Qed.

(** ** The payloads as they are published *)

Section PayloadFacts.
Context `{External}.
Variable w : Z.

Lemma payloads_with_tag_cycle (tag : Z) (hdr : Header) (ps : list Pose) :
  filter (fun data => nth 0 data 0 =? tag)
    (map can_data
       (flat_map (fun p => [position_msg w hdr p; orientation_msg w hdr p]) ps)) =
  flat_map (fun p =>
              (if 2 =? tag
               then [position_frame w (quantize (position_x p)) (quantize (position_z p))]
               else []) ++
              (if 3 =? tag
               then [orientation_frame (wire_angle w (euler_of p))]
               else [])) ps.
Proof.
  induction ps as [|p ps IH]; [reflexivity|].
  cbn [flat_map app map filter]. rewrite IH.
  unfold position_msg, orientation_msg, frame_msg. cbn [can_data].
  change (nth 0 (position_frame w (quantize (position_x p)) (quantize (position_z p))) 0)
    with 2.
  change (nth 0 (orientation_frame (wire_angle w (euler_of p))) 0) with 3.
  destruct (2 =? tag); destruct (3 =? tag); reflexivity.
Qed.

(** C2: the position payloads handed to [can_pub] in a cycle -- the
    published messages with tag 0x02 -- are, one per accepted marker and in
    the order of detection, exactly the five bytes [0x02, (qx >> 8) & 0xFF,
    (qx + 128) & 0xFF, ((qz + 128) >> 8) & 0xFF, qz & 0xFF] with [qx], [qz]
    the quantised coordinates of that marker.  The shifts, sums and masks
    are those of unbounded integers, and the same five bytes are built from
    every pair of signed integers: the offset 128 enters the low byte of
    [qx] and the high byte of [qz] only, and a sum that leaves the integer
    width is absorbed by the mask. *)
Theorem position_frame_layout (self : ArucoNode) (info : CameraInfo) (img : ImageMsg) :
  32 <= w ->
  info_msg self = Some info ->
  payloads_with_tag 2 (snd (image_callback w self img)) =
    map (fun m =>
           let qx := quantize (position_x (make_pose m)) in
           let qz := quantize (position_z (make_pose m)) in
           [2; Z.land (Z.shiftr qx 8) 255; Z.land (qx + 128) 255;
            Z.land (Z.shiftr (qz + 128) 8) 255; Z.land qz 255])
        (cycle_accepted self img)
  /\ (forall qx qz : Z,
        position_frame w qx qz =
          [2; Z.land (Z.shiftr qx 8) 255; Z.land (qx + 128) 255;
           Z.land (Z.shiftr (qz + 128) 8) 255; Z.land qz 255])
  /\ Forall (Forall (fun b => 0 <= b < 256))
            (payloads_with_tag 2 (snd (image_callback w self img))).
Proof.
  intros Hw Hinfo.
  assert (E : payloads_with_tag 2 (snd (image_callback w self img)) =
    map (fun m =>
           let qx := quantize (position_x (make_pose m)) in
           let qz := quantize (position_z (make_pose m)) in
           [2; Z.land (Z.shiftr qx 8) 255; Z.land (qx + 128) 255;
            Z.land (Z.shiftr (qz + 128) 8) 255; Z.land qz 255])
        (cycle_accepted self img)).
  { unfold payloads_with_tag. rewrite wire_frames_cycle, Hinfo.
    rewrite payloads_with_tag_cycle. cbn [Z.eqb Pos.eqb app].
    induction (cycle_accepted self img) as [|m ms IH]; [reflexivity|].
    cbn [map flat_map app]. rewrite IH. cbv zeta.
    rewrite (position_frame_bytes w _ _ Hw). reflexivity. }
  split; [exact E|]. split; [intros qx qz; now apply position_frame_bytes|].
  rewrite E. apply Forall_forall. intros data Hd.
  apply in_map_iff in Hd. destruct Hd as [m [<- _]]. cbv zeta.
  repeat constructor; try apply byte_range; lia.
Qed.

(** C3: the orientation payloads handed to [can_pub] in a cycle -- the
    published messages with tag 0x03 -- are, one per accepted marker and in
    the order of detection, exactly the five bytes [0x03, (r >> 8) & 0xFF,
    r & 0xFF, 0x00, 0x00] with [r] the wire angle of that marker; the same
    five bytes are built from every integer angle, and the last two bytes
    of every published orientation payload are 0. *)
Theorem orientation_frame_layout (self : ArucoNode) (info : CameraInfo) (img : ImageMsg) :
  info_msg self = Some info ->
  payloads_with_tag 3 (snd (image_callback w self img)) =
    map (fun m =>
           let r := wire_angle w (euler_of (make_pose m)) in
           [3; Z.land (Z.shiftr r 8) 255; Z.land r 255; 0; 0])
        (cycle_accepted self img)
  /\ (forall r : Z,
        orientation_frame r = [3; Z.land (Z.shiftr r 8) 255; Z.land r 255; 0; 0])
  /\ Forall (fun data => nth 3 data 1 = 0 /\ nth 4 data 1 = 0 /\
                         Forall (fun b => 0 <= b < 256) data)
            (payloads_with_tag 3 (snd (image_callback w self img))).
Proof.
  intros Hinfo.
  assert (E : payloads_with_tag 3 (snd (image_callback w self img)) =
    map (fun m =>
           let r := wire_angle w (euler_of (make_pose m)) in
           [3; Z.land (Z.shiftr r 8) 255; Z.land r 255; 0; 0])
        (cycle_accepted self img)).
  { unfold payloads_with_tag. rewrite wire_frames_cycle, Hinfo.
    rewrite payloads_with_tag_cycle. cbn [Z.eqb Pos.eqb app].
    induction (cycle_accepted self img) as [|m ms IH]; [reflexivity|].
    cbn [map flat_map app]. rewrite IH. cbv zeta.
    rewrite orientation_frame_bytes. reflexivity. }
  split; [exact E|]. split; [exact orientation_frame_bytes|].
  rewrite E. apply Forall_forall. intros data Hd.
  apply in_map_iff in Hd. destruct Hd as [m [<- _]]. cbv zeta. cbn [nth].
  split; [reflexivity|]. split; [reflexivity|].
  repeat constructor; try apply byte_range; lia.
Qed.

End PayloadFacts.

Lemma position_frame_layout_witness :
  32 <= 32 /\
  info_msg (sample_node true [7; 9]) = Some sample_info /\
  payloads_with_tag 2
    (snd (image_callback (H := sample_external) 32
            (sample_node true [7; 9]) (sample_image [9; 3; 7]))) =
    [[2; 0; 159; 0; 125]; [2; 0; 159; 0; 125]].
Proof.
  split; [lia|]. split; [reflexivity|].
  exact (proj1 (position_frame_layout (H := sample_external) 32
                  (sample_node true [7; 9]) sample_info (sample_image [9; 3; 7])
                  ltac:(lia) eq_refl)).
Defined.

Lemma orientation_frame_layout_witness :
  info_msg (sample_node true [7; 9]) = Some sample_info /\
  payloads_with_tag 3
    (snd (image_callback (H := sample_external) 32
            (sample_node true [7; 9]) (sample_image [9; 3; 7]))) =
    [[3; 0; 179; 0; 0]; [3; 0; 179; 0; 0]].
Proof.
  split; [reflexivity|].
  exact (proj1 (orientation_frame_layout (H := sample_external) 32
                  (sample_node true [7; 9]) sample_info (sample_image [9; 3; 7])
                  eq_refl)).
Defined.

(** The bytes built from a negative x and from a z beyond 16 bits. *)
Example position_frame_wrapping :
  position_frame 32 (-30) 2147483600 = [2; 255; 98; 0; 208].
Proof. vm_compute. reflexivity. Qed.
